(** * Monochromator: the serial protocol client of an Oriel Cornerstone 260

    A shallow embedding of [monochromator.py].  Python text is a list of
    code points, bytes are [Byte.byte], the serial port is an interface
    with two operations, and every method is a computation in a small
    state-and-exception monad that threads the port and keeps a log of
    the calls made on it. *)

From Stdlib Require Import ZArith NArith List String Ascii Bool Lia SpecFloat.
From Stdlib Require Import Strings.Byte.
Import ListNotations.

Set Implicit Arguments.
Local Open Scope string_scope.
Local Open Scope list_scope.
Local Open Scope N_scope.

(** ** Text, bytes and exceptions *)

Definition codepoint := N.
Definition str := list codepoint.
Definition bytes := list byte.

(** A Python string literal of the source, written as a Rocq string. *)
Definition lit (s : string) : str := map N_of_ascii (list_ascii_of_string s).

Definition byte_of_N (n : N) : byte :=
  match Byte.of_N (n mod 256) with
  | Some b => b
  | None => x00
  end.

Definition N_of_byte (b : byte) : N := Byte.to_N b.

(** The exceptions that can leave a method.  [ValueError] carries its
    message; for the ones raised by built-ins the message is the fixed
    part of the interpreter's text. *)
Inductive exn : Type :=
| ValueError (msg : string)
| TypeError
| IndexError
| UnicodeEncodeError
| UnicodeDecodeError
| SerialException (msg : string).

Inductive result (A : Type) : Type :=
| Ok (a : A)
| Err (e : exn).

Arguments Ok {A} a.
Arguments Err {A} e.

(** What the interpreter supplies and the repository does not fix: the
    Unicode tables beyond ASCII and the limit on int/str conversions
    ([sys.get_int_max_str_digits()], 0 for none). *)
Class PyRuntime : Type := {
  toupper_full : codepoint -> list codepoint;
  unicode_isspace : codepoint -> bool;
  unicode_todecimal : codepoint -> option N;
  int_max_str_digits : N
}.

(** The interpreter applies the conversion limit above this many digits only. *)
Definition str_digits_check_threshold : N := 640.

(** ** Built-in string operations *)

Section Builtins.
Context {rt : PyRuntime}.

Definition is_ascii (s : str) : bool := forallb (fun c => c <? 128) s.

(** [str.upper()] *)
Definition upper_cp (c : codepoint) : list codepoint :=
  if c <? 128 then
    (if (97 <=? c) && (c <=? 122) then [c - 32] else [c])
  else toupper_full c.

Definition upper (s : str) : str := flat_map upper_cp s.

(** [str.isspace()] on one character *)
Definition isspace (c : codepoint) : bool :=
  if c <? 128 then
    ((9 <=? c) && (c <=? 13)) || ((28 <=? c) && (c <=? 32))
  else unicode_isspace c.

(** [str.rstrip()] *)
Fixpoint rstrip (s : str) : str :=
  match s with
  | [] => []
  | c :: t =>
      match rstrip t with
      | [] => if isspace c then [] else [c]
      | t' => c :: t'
      end
  end.

(** [str.split(sep)] for a one-character separator *)
Fixpoint split (sep : codepoint) (s : str) : list str :=
  match s with
  | [] => [[]]
  | c :: t =>
      if c =? sep then [] :: split sep t
      else match split sep t with
           | [] => [[c]]
           | f :: fs => (c :: f) :: fs
           end
  end.

(** [sep.join(parts)] *)
Fixpoint join (sep : str) (parts : list str) : str :=
  match parts with
  | [] => []
  | [p] => p
  | p :: ps => p ++ sep ++ join sep ps
  end.

(** [s[-1]] *)
Definition last_char (s : str) : result codepoint :=
  match rev s with
  | [] => Err IndexError
  | c :: _ => Ok c
  end.

(** [l[i]] for a non-negative index *)
Definition getitem {A : Type} (l : list A) (i : nat) : result A :=
  match nth_error l i with
  | Some a => Ok a
  | None => Err IndexError
  end.

Definition str_eqb (a b : str) : bool :=
  if list_eq_dec N.eq_dec a b then true else false.

(** ** UTF-8 *)

Definition encode_cp (c : codepoint) : result bytes :=
  if c <? 0x80 then Ok [byte_of_N c]
  else if c <? 0x800 then
    Ok [byte_of_N (0xC0 + c / 64); byte_of_N (0x80 + c mod 64)]
  else if c <? 0x10000 then
    if (0xD800 <=? c) && (c <=? 0xDFFF) then Err UnicodeEncodeError
    else Ok [byte_of_N (0xE0 + c / 4096); byte_of_N (0x80 + (c / 64) mod 64);
             byte_of_N (0x80 + c mod 64)]
  else if c <? 0x110000 then
    Ok [byte_of_N (0xF0 + c / 262144); byte_of_N (0x80 + (c / 4096) mod 64);
        byte_of_N (0x80 + (c / 64) mod 64); byte_of_N (0x80 + c mod 64)]
  else Err UnicodeEncodeError.

(** [s.encode('utf-8')] *)
Fixpoint encode_utf8 (s : str) : result bytes :=
  match s with
  | [] => Ok []
  | c :: t =>
      match encode_cp c with
      | Err e => Err e
      | Ok bs =>
          match encode_utf8 t with
          | Err e => Err e
          | Ok r => Ok (bs ++ r)
          end
      end
  end.

Definition is_cont (b : N) : bool := (0x80 <=? b) && (b <=? 0xBF).

Definition cons_ok (c : codepoint) (r : result str) : result str :=
  match r with
  | Ok s => Ok (c :: s)
  | Err e => Err e
  end.

(** [b.decode('utf-8')], strict: overlong forms, surrogates and values
    above U+10FFFF are rejected. *)
Fixpoint decode_utf8 (bs : bytes) : result str :=
  match bs with
  | [] => Ok []
  | b0 :: r0 =>
      let a := N_of_byte b0 in
      if a <? 0x80 then cons_ok a (decode_utf8 r0)
      else if (0xC2 <=? a) && (a <=? 0xDF) then
        match r0 with
        | b1 :: r1 =>
            let b := N_of_byte b1 in
            if is_cont b
            then cons_ok ((a - 0xC0) * 64 + (b - 0x80)) (decode_utf8 r1)
            else Err UnicodeDecodeError
        | _ => Err UnicodeDecodeError
        end
      else if (0xE0 <=? a) && (a <=? 0xEF) then
        match r0 with
        | b1 :: b2 :: r2 =>
            let b := N_of_byte b1 in
            let c := N_of_byte b2 in
            let v := (a - 0xE0) * 4096 + (b - 0x80) * 64 + (c - 0x80) in
            if is_cont b && is_cont c && (0x800 <=? v)
               && negb ((0xD800 <=? v) && (v <=? 0xDFFF))
            then cons_ok v (decode_utf8 r2)
            else Err UnicodeDecodeError
        | _ => Err UnicodeDecodeError
        end
      else if (0xF0 <=? a) && (a <=? 0xF4) then
        match r0 with
        | b1 :: b2 :: b3 :: r3 =>
            let b := N_of_byte b1 in
            let c := N_of_byte b2 in
            let d := N_of_byte b3 in
            let v := (a - 0xF0) * 262144 + (b - 0x80) * 4096
                     + (c - 0x80) * 64 + (d - 0x80) in
            if is_cont b && is_cont c && is_cont d
               && (0x10000 <=? v) && (v <? 0x110000)
            then cons_ok v (decode_utf8 r3)
            else Err UnicodeDecodeError
        | _ => Err UnicodeDecodeError
        end
      else Err UnicodeDecodeError
  end.

End Builtins.

(** ** Built-in conversions between numbers and text *)

Section Conversions.
Context {rt : PyRuntime}.

Definition is_digit (c : codepoint) : bool := (48 <=? c) && (c <=? 57).

(** The C-level [Py_ISSPACE] used by the number parsers. *)
Definition c_isspace (c : codepoint) : bool :=
  ((9 <=? c) && (c <=? 13)) || (c =? 32).

Fixpoint dec_digits (fuel : nat) (n : N) (acc : str) : str :=
  match fuel with
  | O => acc
  | S f =>
      let acc' := (48 + n mod 10) :: acc in
      if n / 10 =? 0 then acc' else dec_digits f (n / 10) acc'
  end.

(** The decimal digits of a natural number, most significant first. *)
Definition decimal (n : N) : str :=
  dec_digits (S (N.to_nat (N.log2 n))) n [].

Definition over_digit_limit (nd : N) : bool :=
  (str_digits_check_threshold <? nd) && (0 <? int_max_str_digits)
  && (int_max_str_digits <? nd).

(** [str(z)] for an [int] *)
Definition str_of_int (z : Z) : result str :=
  let ds := decimal (Z.abs_N z) in
  if over_digit_limit (N.of_nat (List.length ds))
  then Err (ValueError "Exceeds the limit for integer string conversion")
  else Ok (if (z <? 0)%Z then 45 :: ds else ds).

(** What the number parsers do first with text that is not pure ASCII:
    spaces become [' '], decimal digits their ASCII digit, and the first
    other character a ['?'] that ends the text. *)
Fixpoint transform_decimal_and_space (s : str) : str :=
  match s with
  | [] => []
  | c :: t =>
      if c <? 127 then c :: transform_decimal_and_space t
      else if isspace c then 32 :: transform_decimal_and_space t
      else match (if c <? 128 then None else unicode_todecimal c) with
           | Some d => (48 + d) :: transform_decimal_and_space t
           | None => [63]
           end
  end.

Definition to_ascii_number (s : str) : str :=
  if is_ascii s then s else transform_decimal_and_space s.

Fixpoint lstrip_c (s : str) : str :=
  match s with
  | c :: t => if c_isspace c then lstrip_c t else s
  | [] => []
  end.

Definition take_sign (s : str) : bool * str :=
  match s with
  | 43 :: t => (false, t)
  | 45 :: t => (true, t)
  | _ => (false, s)
  end.

(** Digits with single underscores between them; [None] when an
    underscore is doubled or last. *)
Fixpoint scan_digits (s : str) (prev : codepoint) (acc : N) (nd : N)
  : option (N * N * str) :=
  match s with
  | c :: t =>
      if is_digit c then scan_digits t c (acc * 10 + (c - 48)) (nd + 1)
      else if c =? 95 then
        (if prev =? 95 then None else scan_digits t c acc nd)
      else if prev =? 95 then None else Some (acc, nd, s)
  | [] => if prev =? 95 then None else Some (acc, nd, s)
  end.

Definition invalid_int : exn := ValueError "invalid literal for int() with base 10".

(** [int(s)] for a [str] *)
Definition py_int (s : str) : result Z :=
  let '(neg, body) := take_sign (lstrip_c (to_ascii_number s)) in
  match body with
  | 95 :: _ => Err invalid_int
  | _ =>
      match scan_digits body 0 0 0 with
      | None => Err invalid_int
      | Some (v, nd, rest) =>
          if over_digit_limit nd
          then Err (ValueError "Exceeds the limit for integer string conversion")
          else if nd =? 0 then Err invalid_int
          else if forallb c_isspace rest
               then Ok (if neg then (- Z.of_N v)%Z else Z.of_N v)
               else Err invalid_int
      end
  end.

(** *** Floats: IEEE binary64 values *)

Definition pyfloat := spec_float.

Definition is_finite (x : pyfloat) : bool :=
  match x with
  | S754_zero _ | S754_finite _ _ _ => true
  | _ => false
  end.

Definition sign_text (s : bool) : str := if s then [45] else [].

(** [m * 2^e * 1000] rounded to the nearest integer, ties to even. *)
Definition thousandths (m : positive) (e : Z) : N :=
  match e with
  | Z0 => Npos m * 1000
  | Zpos p => Npos m * 2 ^ Npos p * 1000
  | Zneg p =>
      let q := Npos m * 1000 in
      let d := 2 ^ Npos p in
      let n0 := q / d in
      match (2 * (q mod d)) ?= d with
      | Lt => n0
      | Eq => if N.even n0 then n0 else n0 + 1
      | Gt => n0 + 1
      end
  end.

Definition pad3 (x : N) : str :=
  [48 + x / 100; 48 + (x / 10) mod 10; 48 + x mod 10].

(** [f'{x:.3f}'] *)
Definition format_3f (x : pyfloat) : str :=
  match x with
  | S754_nan => lit "nan"
  | S754_infinity s => sign_text s ++ lit "inf"
  | S754_zero s => sign_text s ++ lit "0.000"
  | S754_finite s m e =>
      let n := thousandths m e in
      sign_text s ++ decimal (n / 1000) ++ [46] ++ pad3 (n mod 1000)
  end.

Fixpoint rstrip_c_aux (s : str) : str :=
  match s with
  | [] => []
  | c :: t =>
      match rstrip_c_aux t with
      | [] => if c_isspace c then [] else [c]
      | t' => c :: t'
      end
  end.

(** Underscores of a float literal are dropped when each one stands
    between two digits; otherwise the literal is refused. *)
Fixpoint drop_underscores (s : str) (prev : codepoint) : option str :=
  match s with
  | [] => if prev =? 95 then None else Some []
  | c :: t =>
      if c =? 95 then
        (if is_digit prev then drop_underscores t c else None)
      else if (prev =? 95) && negb (is_digit c) then None
      else match drop_underscores t c with
           | Some r => Some (c :: r)
           | None => None
           end
  end.

Fixpoint take_digits (s : str) : str * str :=
  match s with
  | c :: t =>
      if is_digit c then let '(d, r) := take_digits t in (c :: d, r)
      else ([], s)
  | [] => ([], [])
  end.

Definition number_of (ds : str) : N :=
  fold_left (fun acc c => acc * 10 + (c - 48)) ds 0.

Definition lower_ascii (c : codepoint) : codepoint :=
  if (65 <=? c) && (c <=? 90) then c + 32 else c.

(** The binary64 value nearest to [m * 10^k], ties to even. *)
Definition float_of_decimal (neg : bool) (m : N) (k : Z) : pyfloat :=
  match m with
  | N0 => S754_zero neg
  | Npos p =>
      match k with
      | Zneg q =>
          SFdiv 53 1024 (S754_finite neg p 0)
                (S754_finite false (Pos.pow 10 q) 0)
      | Z0 => binary_round 53 1024 neg p 0
      | Zpos q => binary_round 53 1024 neg (p * Pos.pow 10 q) 0
      end
  end.

(** The optional exponent of a float literal: its value and what
    follows it; a malformed exponent is left unread. *)
Definition take_exponent (s : str) : Z * str :=
  match s with
  | c :: t =>
      if (c =? 101) || (c =? 69) then
        let '(neg, t') := take_sign t in
        let '(ds, r) := take_digits t' in
        match ds with
        | [] => (0%Z, s)
        | _ => ((if neg then - Z.of_N (number_of ds) else Z.of_N (number_of ds))%Z, r)
        end
      else (0%Z, s)
  | [] => (0%Z, [])
  end.

Definition invalid_float : exn := ValueError "could not convert string to float".

Definition parse_decimal_float (neg : bool) (s : str) : result pyfloat :=
  let '(ip, r1) := take_digits s in
  let '(fp, r2) :=
    match r1 with
    | 46 :: t => take_digits t
    | _ => ([], r1)
    end in
  match ip ++ fp with
  | [] => Err invalid_float
  | ds =>
      let '(ex, r3) := take_exponent r2 in
      match r3 with
      | [] => Ok (float_of_decimal neg (number_of ds)
                    (ex - Z.of_nat (List.length fp)))
      | _ => Err invalid_float
      end
  end.

(** [float(s)] for a [str] *)
Definition py_float (s : str) : result pyfloat :=
  let body := rstrip_c_aux (lstrip_c (to_ascii_number s)) in
  match (if existsb (N.eqb 95) body then drop_underscores body 0 else Some body) with
  | None => Err invalid_float
  | Some b =>
      let '(neg, t) := take_sign b in
      let low := map lower_ascii t in
      if str_eqb low (lit "inf") || str_eqb low (lit "infinity")
      then Ok (S754_infinity neg)
      else if str_eqb low (lit "nan") then Ok S754_nan
      else parse_decimal_float neg t
  end.

End Conversions.

(** ** The serial port

    The two operations of [serial.Serial] the class calls.  Each takes
    the port's state and returns its result, or the exception it raises,
    with the port's next state. *)
Class Serial (Com : Type) : Type := {
  com_write : bytes -> Com -> result Z * Com;
  com_read_until : bytes -> Com -> result bytes * Com
}.

(** A call made on the port. *)
Inductive event : Type :=
| Wrote (data : bytes)
| ReadUntil (expected : bytes).

(** ** The class *)

Section Protocol.
Context {rt : PyRuntime} {Com : Type} {ser : Serial Com}.

(** The object's state: the port [_com], and the calls made on it so far. *)
Record Session : Type := {
  _com : Com;
  calls : list event
}.

Definition M (A : Type) : Type := Session -> result A * Session.

Definition ret {A : Type} (a : A) : M A := fun s => (Ok a, s).

Definition raise {A : Type} (e : exn) : M A := fun s => (Err e, s).

Definition bind {A B : Type} (m : M A) (k : A -> M B) : M B :=
  fun s =>
    match m s with
    | (Ok a, s') => k a s'
    | (Err e, s') => (Err e, s')
    end.

(** A built-in that returns or raises without touching the port. *)
Definition lift {A : Type} (r : result A) : M A := fun s => (r, s).

Definition run {A : Type} (m : M A) (s : Session) : result A * Session := m s.

Notation "x <- m ;; k" := (bind m (fun x => k))
  (at level 100, m at next level, right associativity).
Notation "m ;;; k" := (bind m (fun _ => k))
  (at level 100, right associativity).

(** [self._com.write(data)] *)
Definition serial_write (data : bytes) : M Z :=
  fun s =>
    let '(r, c) := com_write data (_com s) in
    (r, {| _com := c; calls := calls s ++ [Wrote data] |}).

(** [self._com.read_until(expected)] *)
Definition serial_read_until (expected : bytes) : M bytes :=
  fun s =>
    let '(r, c) := com_read_until expected (_com s) in
    (r, {| _com := c; calls := calls s ++ [ReadUntil expected] |}).

(** [self.term_chars], set to ['\r\n'] when the object is created;
    [self.encoding] is ['utf-8'] throughout. *)
Definition term_chars : str := [13; 10].

Record Response : Type := {
  statement : str;
  response : str
}.

(** An argument of [command], or a value of the grating dictionary. *)
Inductive pyval : Type :=
| PyInt (z : Z)
| PyStr (s : str).

(** [str(v)] *)
Definition py_str (v : pyval) : result str :=
  match v with
  | PyInt z => str_of_int z
  | PyStr s => Ok s
  end.

Fixpoint map_str (args : list pyval) : result (list str) :=
  match args with
  | [] => Ok []
  | v :: vs =>
      match py_str v with
      | Err e => Err e
      | Ok s =>
          match map_str vs with
          | Err e => Err e
          | Ok ss => Ok (s :: ss)
          end
      end
  end.

(** *** Low level methods *)

Definition write (msg : str) : M Z :=
  let msg := msg ++ term_chars in
  let msg := upper msg in
  data <- lift (encode_utf8 msg) ;;
  serial_write data.

Definition read : M str :=
  expected <- lift (encode_utf8 term_chars) ;;
  resp <- serial_read_until expected ;;
  lift (decode_utf8 resp).

Definition command (cmd : str) (args : list pyval) : M str :=
  args <- lift (map_str args) ;;
  let msg := cmd ++ lit " " ++ join (lit " ") args in
  write msg ;;;
  line <- read ;;
  ret (rstrip line).

Definition query (msg : str) : M Response :=
  c <- lift (last_char msg) ;;
  let msg := if negb (c =? 63) then msg ++ lit "?" else msg in
  write msg ;;;
  l1 <- read ;;
  let statement := rstrip l1 in
  l2 <- read ;;
  let response := rstrip l2 in
  ret {| statement := statement; response := response |}.

(** *** High level methods *)

Definition info : M str :=
  resp <- query (lit "info") ;;
  ret (response resp).

Definition position : M pyfloat :=
  resp <- query (lit "wave") ;;
  let resp := response resp in
  lift (py_float resp).

Definition step (steps : Z) : M unit :=
  command (lit "step") [PyInt steps] ;;;
  ret tt.

Definition goto (wavelength : pyfloat) : M pyfloat :=
  let wavelength := format_3f wavelength in
  command (lit "gowave") [PyStr wavelength] ;;;
  position.

Definition abort : M unit :=
  command (lit "abort") [] ;;;
  ret tt.

Definition grating : M (list (str * pyval)) :=
  resp <- query (lit "grat") ;;
  let resp := split 44 (response resp) in
  f0 <- lift (getitem resp 0) ;;
  number <- lift (py_int f0) ;;
  f1 <- lift (getitem resp 1) ;;
  lines <- lift (py_int f1) ;;
  label <- lift (getitem resp 2) ;;
  ret [(lit "number", PyInt number);
       (lit "lines", PyInt lines);
       (lit "label", PyStr label)].

Definition MIN_VAL : Z := 1.
Definition MAX_VAL : Z := 6.

(** The static method is declared with one positional parameter, [pos];
    a call with any other number of arguments is refused with a
    [TypeError] before the body runs. *)
Definition _validate_filter (args : list Z) : M bool :=
  match args with
  | [pos] =>
      if (pos <? MIN_VAL)%Z || (pos >? MAX_VAL)%Z
      then raise (ValueError "Invalid filter value. Must be between 1 and 6.")
      else ret true
  | _ => raise TypeError
  end.

Definition set_filter (pos : Z) : M unit :=
  _validate_filter [pos] ;;;
  command (lit "filter") [PyInt pos] ;;;
  ret tt.

Definition filter_label (filter : Z) (label : option str) : M str :=
  _validate_filter [] ;;;
  n <- lift (str_of_int filter) ;;
  let cmd := lit "filter" ++ n ++ lit "label" in
  match label with
  | Some l =>
      if (8 <? List.length l)%nat
      then raise (ValueError "Label is too long, must be less than 9 characters.")
      else command cmd [PyStr l] ;;; ret tt
  | None => ret tt
  end ;;;
  resp <- query cmd ;;
  ret (response resp).

Definition shuttered : M bool :=
  resp <- query (lit "shutter") ;;
  ret (str_eqb (response resp) (lit "C")).

Definition shutter (close : bool) : M unit :=
  let cmd := if close then lit "C" else lit "O" in
  command (lit "shutter") [PyStr cmd] ;;;
  ret tt.

Definition set_grating (grating : Z) : M unit :=
  command (lit "grat") [PyInt grating] ;;;
  ret tt.

(** The property [filter]. *)
Definition filter : M Z :=
  resp <- query (lit "filter") ;;
  let resp := response resp in
  lift (py_int resp).

Definition outport : M Z :=
  resp <- query (lit "outport") ;;
  lift (py_int (response resp)).

Definition set_outport (port : Z) : M unit :=
  command (lit "outport") [PyInt port] ;;;
  ret tt.

Definition slit_width (slit : Z) (width : option Z) : M Z :=
  n <- lift (str_of_int slit) ;;
  let cmd := lit "slit" ++ n ++ lit "microns" in
  match width with
  | Some w => command cmd [PyInt w] ;;; ret tt
  | None => ret tt
  end ;;;
  resp <- query cmd ;;
  lift (py_int (response resp)).

End Protocol.

Arguments Session : clear implicits.
Arguments M : clear implicits.

(** ** Describing what goes over the wire *)

(** The terminator as bytes, and the bytes of ASCII text. *)
Definition crlf : bytes := [x0d; x0a].

Definition ascii_bytes (s : str) : bytes := map byte_of_N s.

(** The message [query] hands to [write], given the last character [c]
    of its argument. *)
Definition marked (c : codepoint) (m : str) : str :=
  if negb (c =? 63) then m ++ lit "?" else m.

(** Text of the form [-]digits.ddd *)
Definition three_decimals (t : str) : Prop :=
  exists sg ip d1 d2 d3,
    t = sg ++ ip ++ [46; d1; d2; d3]
    /\ (sg = [] \/ sg = [45])
    /\ ip <> []
    /\ forallb is_digit (ip ++ [d1; d2; d3]) = true.

(** Text that does not end in a whitespace character. *)
Definition no_trailing_space {rt : PyRuntime} (t : str) : Prop :=
  forall p c, t = p ++ [c] -> isspace c = false.

(** The bytes of the filter command for position [p]. *)
Definition filter_command_bytes (p : Z) : bytes :=
  list_byte_of_string "FILTER " ++ [byte_of_N (48 + Z.to_N p)] ++ crlf.

(** One successful operation of the port: a write of [data] that
    reports [count] bytes, or a read that delivers [line]. *)
Inductive io : Type :=
| Sent (data : bytes) (count : Z)
| Got (expected : bytes) (line : bytes).

Section Scripts.
Context {Com : Type} {ser : Serial Com}.

(** [plays c script c']: from state [c] the port performs the
    operations of [script] in order, none raising, and ends in [c']. *)
Inductive plays : Com -> list io -> Com -> Prop :=
| plays_done : forall c, plays c [] c
| plays_sent : forall c d n c1 r c',
    com_write d c = (Ok n, c1) -> plays c1 r c' ->
    plays c (Sent d n :: r) c'
| plays_got : forall c e l c1 r c',
    com_read_until e c = (Ok l, c1) -> plays c1 r c' ->
    plays c (Got e l :: r) c'.

(** [p] makes, as its first call on the port, a write of [data]. *)
Definition transmits {A : Type} (p : M Com A) (data : bytes) : Prop :=
  forall s : Session Com, exists r s' rest,
    run p s = (r, s') /\ calls s' = calls s ++ Wrote data :: rest.

End Scripts.

(** ** A scripted device

    A port for running the methods on concrete input: it records every
    write and reports its length, and serves reads from a buffer of
    bytes the device will send, up to and including the expected
    sequence, or whatever is left when the sequence never comes (the
    time-out of the real port). *)
Record MockPort : Type := {
  outbox : list bytes;
  inbox : bytes
}.

Fixpoint strip_prefix (p s : bytes) : option bytes :=
  match p, s with
  | [], _ => Some s
  | a :: p', b :: s' => if Byte.eqb a b then strip_prefix p' s' else None
  | _ :: _, [] => None
  end.

Fixpoint take_until (expected buf : bytes) : bytes * bytes :=
  match strip_prefix expected buf with
  | Some rest => (expected, rest)
  | None =>
      match buf with
      | [] => ([], [])
      | b :: t => let '(l, r) := take_until expected t in (b :: l, r)
      end
  end.

Definition mock_serial : Serial MockPort := {|
  com_write := fun data p =>
    (Ok (Z.of_nat (List.length data)),
     {| outbox := outbox p ++ [data]; inbox := inbox p |});
  com_read_until := fun expected p =>
    let '(l, r) := take_until expected (inbox p) in
    (Ok l, {| outbox := outbox p; inbox := r |})
|}.

(** Tables for running examples whose text is all ASCII, where they are
    never consulted; the conversion limit is the interpreter's default. *)
Definition ascii_runtime : PyRuntime := {|
  toupper_full := fun c => [c];
  unicode_isspace := fun _ => false;
  unicode_todecimal := fun _ => None;
  int_max_str_digits := 4300
|}.

(** A fresh session on a device that will send [lines], each followed
    by the terminator. *)
Definition mock_session (lines : list string) : Session MockPort :=
  {| _com := {| outbox := [];
                inbox := flat_map (fun l => list_byte_of_string l ++ crlf) lines |};
     calls := [] |}.

(** A port that is not open: every operation raises. *)
Definition closed_port : Serial unit := {|
  com_write := fun _ p =>
    (Err (SerialException "Attempting to use a port that is not open"), p);
  com_read_until := fun _ p =>
    (Err (SerialException "Attempting to use a port that is not open"), p)
|}.

(** The double 500.0 *)
Definition f500 : pyfloat := S754_finite false 8796093022208000 (-44).

(** The double nearest to 499.998 *)
Definition f499_998 : pyfloat := S754_finite false 8796057837835911 (-44).

(** * Properties *)

(** ** Running the primitives *)

Section Primitives.
Context {rt : PyRuntime} {Com : Type} {ser : Serial Com}.

Ltac unfold_M :=
  unfold run, bind, lift, ret, raise, serial_write, serial_read_until in *.

Lemma encode_term_chars : encode_utf8 term_chars = Ok crlf.
Proof. reflexivity. Qed.

Lemma run_bind {A B : Type} (m : M Com A) (k : A -> M Com B) (s : Session Com) :
  run (bind m k) s =
    match run m s with
    | (Ok a, s') => run (k a) s'
    | (Err e, s') => (Err e, s')
    end.
Proof. reflexivity. Qed.

Lemma run_ret {A : Type} (a : A) (s : Session Com) : run (ret a) s = (Ok a, s).
Proof. reflexivity. Qed.

Lemma run_lift {A : Type} (r : result A) (s : Session Com) : run (lift r) s = (r, s).
Proof. reflexivity. Qed.

Lemma run_write (m : str) (data : bytes) (s : Session Com) :
  encode_utf8 (upper (m ++ term_chars)) = Ok data ->
  run (write m) s =
    (fst (com_write data (_com s)),
     {| _com := snd (com_write data (_com s));
        calls := calls s ++ [Wrote data] |}).
Proof.
  intros H. unfold write. unfold_M. rewrite H.
  destruct (com_write data (_com s)); reflexivity.
Qed.

Lemma run_write_unencodable (m : str) (e : exn) (s : Session Com) :
  encode_utf8 (upper (m ++ term_chars)) = Err e ->
  run (write m) s = (Err e, s).
Proof. intros H. unfold write. unfold_M. rewrite H. reflexivity. Qed.

Lemma run_read (s : Session Com) :
  run read s =
    (match fst (com_read_until crlf (_com s)) with
     | Ok l => decode_utf8 l
     | Err e => Err e
     end,
     {| _com := snd (com_read_until crlf (_com s));
        calls := calls s ++ [ReadUntil crlf] |}).
Proof.
  unfold read. unfold_M. rewrite encode_term_chars.
  destruct (com_read_until crlf (_com s)) as [[l|e] c]; reflexivity.
Qed.

Lemma write_plays (m : str) (data : bytes) (n : Z) (r : list io)
      (s : Session Com) (c' : Com) :
  encode_utf8 (upper (m ++ term_chars)) = Ok data ->
  plays (_com s) (Sent data n :: r) c' ->
  exists c1,
    run (write m) s = (Ok n, {| _com := c1; calls := calls s ++ [Wrote data] |})
    /\ plays c1 r c'.
Proof.
  intros He Hp. inversion Hp; subst.
  exists c1. split; [|assumption].
  rewrite (run_write _ _ He).
  match goal with H : com_write _ _ = _ |- _ => rewrite H end.
  reflexivity.
Qed.

Lemma read_plays (l : bytes) (t : str) (r : list io) (s : Session Com) (c' : Com) :
  plays (_com s) (Got crlf l :: r) c' ->
  decode_utf8 l = Ok t ->
  exists c1,
    run read s = (Ok t, {| _com := c1; calls := calls s ++ [ReadUntil crlf] |})
    /\ plays c1 r c'.
Proof.
  intros Hp Hd. inversion Hp; subst.
  exists c1. split; [|assumption].
  rewrite run_read.
  match goal with H : com_read_until _ _ = _ |- _ => rewrite H end.
  simpl. rewrite Hd. reflexivity.
Qed.

(** The calls of a write followed by anything start with that write. *)
Lemma write_then_transmits {A : Type} (m : str) (data : bytes) (k : Z -> M Com A) :
  encode_utf8 (upper (m ++ term_chars)) = Ok data ->
  (forall n s, exists r s' rest,
      run (k n) s = (r, s') /\ calls s' = calls s ++ rest) ->
  transmits (bind (write m) k) data.
Proof.
  intros He Hk s.
  rewrite run_bind, (run_write _ _ He).
  destruct (com_write data (_com s)) as [[n|e] c1]; simpl.
  - destruct (Hk n {| _com := c1; calls := calls s ++ [Wrote data] |})
      as (r & s' & rest & Hr & Hc).
    exists r, s', rest. rewrite Hr. split; [reflexivity|].
    rewrite Hc. simpl. rewrite <- app_assoc. reflexivity.
  - eexists _, _, []. split; reflexivity.
Qed.

(** One read, then a pure continuation. *)
Lemma read_then_appends {A : Type} (f : str -> A) (s : Session Com) :
  exists r s' rest,
    run (bind read (fun l => ret (f l))) s = (r, s')
    /\ calls s' = calls s ++ rest.
Proof.
  rewrite run_bind, run_read.
  destruct (match fst (com_read_until crlf (_com s)) with
            | Ok l => decode_utf8 l | Err e => Err e end);
    eexists _, _, _; split; reflexivity.
Qed.

End Primitives.

(** ** Low level methods *)

Section LowLevel.
Context {rt : PyRuntime} {Com : Type} {ser : Serial Com}.

Lemma last_char_ok (m : str) (c : codepoint) :
  last_char m = Ok c <-> exists p, m = p ++ [c].
Proof.
  unfold last_char. split.
  - destruct (rev m) as [|x r] eqn:E; intros H; [discriminate|].
    injection H as ->. exists (rev r).
    rewrite <- (rev_involutive m), E. reflexivity.
  - intros [p ->]. rewrite rev_app_distr. reflexivity.
Qed.

Lemma last_char_nonempty (m : str) :
  m <> [] -> exists c, last_char m = Ok c.
Proof.
  intros H. unfold last_char. destruct (rev m) as [|x r] eqn:E.
  - exfalso. apply H. rewrite <- (rev_involutive m), E. reflexivity.
  - exists x. reflexivity.
Qed.

Lemma run_query (m : str) (c : codepoint) (s : Session Com) :
  last_char m = Ok c ->
  run (query m) s =
  run (bind (write (marked c m))
         (fun _ => bind read (fun l1 => bind read (fun l2 =>
            ret {| statement := rstrip l1; response := rstrip l2 |})))) s.
Proof.
  intros H. unfold query. rewrite run_bind, run_lift, H. reflexivity.
Qed.

Lemma query_plays (m : str) (c : codepoint) (data : bytes) (n : Z)
      (l1 l2 : bytes) (t1 t2 : str) (r : list io) (s : Session Com) (c' : Com) :
  last_char m = Ok c ->
  encode_utf8 (upper ((marked c m) ++ term_chars))
    = Ok data ->
  plays (_com s) (Sent data n :: Got crlf l1 :: Got crlf l2 :: r) c' ->
  decode_utf8 l1 = Ok t1 ->
  decode_utf8 l2 = Ok t2 ->
  exists c3,
    run (query m) s =
      (Ok {| statement := rstrip t1; response := rstrip t2 |},
       {| _com := c3;
          calls := calls s ++ [Wrote data; ReadUntil crlf; ReadUntil crlf] |})
    /\ plays c3 r c'.
Proof.
  intros Hc He Hp H1 H2. rewrite (run_query _ _ Hc).
  destruct (write_plays _ _ He Hp) as (c1 & Hw & Hp1).
  rewrite run_bind, Hw.
  set (s1 := {| _com := c1; calls := calls s ++ [Wrote data] |}).
  destruct (read_plays s1 Hp1 H1) as (c2 & Hr1 & Hp2).
  rewrite run_bind, Hr1.
  set (s2 := {| _com := c2; calls := calls s1 ++ [ReadUntil crlf] |}).
  destruct (read_plays s2 Hp2 H2) as (c3 & Hr2 & Hp3).
  rewrite run_bind, Hr2, run_ret.
  exists c3. split; [|assumption].
  unfold s2, s1. simpl. rewrite <- !app_assoc. reflexivity.
Qed.

Lemma run_command (cmd : str) (args : list pyval) (ss : list str)
      (s : Session Com) :
  map_str args = Ok ss ->
  run (command cmd args) s =
  run (bind (write (cmd ++ lit " " ++ join (lit " ") ss))
         (fun _ => bind read (fun line => ret (rstrip line)))) s.
Proof.
  intros H. unfold command. rewrite run_bind, run_lift, H. reflexivity.
Qed.

Lemma command_plays (cmd : str) (args : list pyval) (ss : list str)
      (data : bytes) (n : Z) (l : bytes) (t : str) (r : list io)
      (s : Session Com) (c' : Com) :
  map_str args = Ok ss ->
  encode_utf8 (upper ((cmd ++ lit " " ++ join (lit " ") ss) ++ term_chars))
    = Ok data ->
  plays (_com s) (Sent data n :: Got crlf l :: r) c' ->
  decode_utf8 l = Ok t ->
  exists c2,
    run (command cmd args) s =
      (Ok (rstrip t),
       {| _com := c2; calls := calls s ++ [Wrote data; ReadUntil crlf] |})
    /\ plays c2 r c'.
Proof.
  intros Ha He Hp Hd. rewrite (run_command _ _ _ Ha).
  destruct (write_plays _ _ He Hp) as (c1 & Hw & Hp1).
  rewrite run_bind, Hw.
  set (s1 := {| _com := c1; calls := calls s ++ [Wrote data] |}).
  destruct (read_plays s1 Hp1 Hd) as (c2 & Hr & Hp2).
  rewrite run_bind, Hr, run_ret.
  exists c2. split; [|assumption].
  unfold s1. simpl. rewrite <- !app_assoc. reflexivity.
Qed.

Lemma command_transmits (cmd : str) (args : list pyval) (ss : list str)
      (data : bytes) :
  map_str args = Ok ss ->
  encode_utf8 (upper ((cmd ++ lit " " ++ join (lit " ") ss) ++ term_chars))
    = Ok data ->
  transmits (command cmd args) data.
Proof.
  intros Ha He s. rewrite (run_command _ _ _ Ha).
  apply (write_then_transmits _ _ He). intros _ s0.
  apply read_then_appends.
Qed.

Lemma query_transmits (m : str) (c : codepoint) (data : bytes) :
  last_char m = Ok c ->
  encode_utf8 (upper ((marked c m) ++ term_chars))
    = Ok data ->
  transmits (query m) data.
Proof.
  intros Hc He s. rewrite (run_query _ _ Hc).
  apply (write_then_transmits _ _ He). intros _ s0.
  rewrite run_bind, run_read.
  destruct (match fst (com_read_until crlf (_com s0)) with
            | Ok l => decode_utf8 l | Err e => Err e end) as [l1|e].
  - set (s1 := {| _com := snd (com_read_until crlf (_com s0));
                  calls := calls s0 ++ [ReadUntil crlf] |}).
    destruct (read_then_appends
                (fun l2 => {| statement := rstrip l1; response := rstrip l2 |}) s1)
      as (r & s' & rest & Hr & Hcalls).
    rewrite Hr.
    exists r, s', ([ReadUntil crlf] ++ rest). split; [reflexivity|].
    rewrite Hcalls. unfold s1. simpl. rewrite <- app_assoc. reflexivity.
  - eexists _, _, _. split; reflexivity.
Qed.

End LowLevel.

(** ** What every run of an exchange looks like *)

Section Exchanges.
Context {rt : PyRuntime} {Com : Type} {ser : Serial Com}.

(** [query], step by step: where it can stop and with what. *)
Lemma run_query_steps (m : str) (s : Session Com) :
  run (query m) s =
  match last_char m with
  | Err e => (Err e, s)
  | Ok c =>
    match encode_utf8 (upper (marked c m ++ term_chars)) with
    | Err e => (Err e, s)
    | Ok d =>
      match com_write d (_com s) with
      | (Err e, c1) => (Err e, {| _com := c1; calls := calls s ++ [Wrote d] |})
      | (Ok _, c1) =>
        match com_read_until crlf c1 with
        | (Err e, c2) =>
            (Err e, {| _com := c2;
                       calls := calls s ++ [Wrote d; ReadUntil crlf] |})
        | (Ok l1, c2) =>
          match decode_utf8 l1 with
          | Err e =>
              (Err e, {| _com := c2;
                         calls := calls s ++ [Wrote d; ReadUntil crlf] |})
          | Ok t1 =>
            match com_read_until crlf c2 with
            | (Err e, c3) =>
                (Err e, {| _com := c3;
                           calls := calls s ++ [Wrote d; ReadUntil crlf;
                                                ReadUntil crlf] |})
            | (Ok l2, c3) =>
              match decode_utf8 l2 with
              | Err e =>
                  (Err e, {| _com := c3;
                             calls := calls s ++ [Wrote d; ReadUntil crlf;
                                                  ReadUntil crlf] |})
              | Ok t2 =>
                  (Ok {| statement := rstrip t1; response := rstrip t2 |},
                   {| _com := c3;
                      calls := calls s ++ [Wrote d; ReadUntil crlf;
                                           ReadUntil crlf] |})
              end
            end
          end
        end
      end
    end
  end.
Proof.
  destruct (last_char m) as [c|e] eqn:Hc.
  2:{ unfold query. rewrite run_bind, run_lift, Hc. reflexivity. }
  rewrite (run_query _ s Hc), run_bind.
  destruct (encode_utf8 (upper (marked c m ++ term_chars))) as [d|e] eqn:He.
  2:{ rewrite (run_write_unencodable _ s He). reflexivity. }
  rewrite (run_write _ s He).
  destruct (com_write d (_com s)) as [[n|e] c1]; cbn [fst snd]; [|reflexivity].
  rewrite run_bind, run_read. cbn [_com calls].
  destruct (com_read_until crlf c1) as [[l1|e] c2]; cbn [fst snd].
  2:{ rewrite <- app_assoc. reflexivity. }
  destruct (decode_utf8 l1) as [t1|e].
  2:{ rewrite <- app_assoc. reflexivity. }
  rewrite run_bind, run_read. cbn [_com calls].
  destruct (com_read_until crlf c2) as [[l2|e] c3]; cbn [fst snd].
  2:{ rewrite <- !app_assoc. reflexivity. }
  destruct (decode_utf8 l2) as [t2|e].
  2:{ rewrite <- !app_assoc. reflexivity. }
  rewrite run_ret, <- !app_assoc. reflexivity.
Qed.

(** [command], step by step. *)
Lemma run_command_steps (cmd : str) (args : list pyval) (s : Session Com) :
  run (command cmd args) s =
  match map_str args with
  | Err e => (Err e, s)
  | Ok ss =>
    match encode_utf8
            (upper ((cmd ++ lit " " ++ join (lit " ") ss) ++ term_chars)) with
    | Err e => (Err e, s)
    | Ok d =>
      match com_write d (_com s) with
      | (Err e, c1) => (Err e, {| _com := c1; calls := calls s ++ [Wrote d] |})
      | (Ok _, c1) =>
        match com_read_until crlf c1 with
        | (Err e, c2) =>
            (Err e, {| _com := c2;
                       calls := calls s ++ [Wrote d; ReadUntil crlf] |})
        | (Ok l, c2) =>
          match decode_utf8 l with
          | Err e =>
              (Err e, {| _com := c2;
                         calls := calls s ++ [Wrote d; ReadUntil crlf] |})
          | Ok t =>
              (Ok (rstrip t),
               {| _com := c2;
                  calls := calls s ++ [Wrote d; ReadUntil crlf] |})
          end
        end
      end
    end
  end.
Proof.
  destruct (map_str args) as [ss|e] eqn:Ha.
  2:{ unfold command. rewrite run_bind, run_lift, Ha. reflexivity. }
  rewrite (run_command _ _ s Ha), run_bind.
  destruct (encode_utf8
              (upper ((cmd ++ lit " " ++ join (lit " ") ss) ++ term_chars)))
    as [d|e] eqn:He.
  2:{ rewrite (run_write_unencodable _ s He). reflexivity. }
  rewrite (run_write _ s He).
  destruct (com_write d (_com s)) as [[n|e] c1]; cbn [fst snd]; [|reflexivity].
  rewrite run_bind, run_read. cbn [_com calls].
  destruct (com_read_until crlf c1) as [[l|e] c2]; cbn [fst snd].
  2:{ rewrite <- app_assoc. reflexivity. }
  destruct (decode_utf8 l) as [t|e].
  2:{ rewrite <- app_assoc. reflexivity. }
  rewrite run_ret, <- !app_assoc. reflexivity.
Qed.

End Exchanges.

Section LowLevelClaims.
Context {rt : PyRuntime} {Com : Type} {ser : Serial Com}.

Lemma last_char_last (m : str) (c : codepoint) :
  last_char m = Ok c -> List.last m 0 = c.
Proof.
  intros H. apply last_char_ok in H. destruct H as [p ->].
  apply last_last.
Qed.

Lemma marked_last (m : str) (c : codepoint) :
  last_char m = Ok c ->
  marked c m = if List.last m 0 =? 63 then m else m ++ lit "?".
Proof.
  intros H. rewrite (last_char_last _ H). unfold marked.
  destruct (c =? 63); reflexivity.
Qed.

Lemma transmits_then_ret {A B : Type} (p : M Com A) (b : B) (data : bytes) :
  transmits p data -> transmits (bind p (fun _ => ret b)) data.
Proof.
  intros H s. destruct (H s) as (r & s' & rest & Hr & Hc).
  rewrite run_bind, Hr. destruct r as [a|e].
  - rewrite run_ret. eexists _, _, _. split; [reflexivity|exact Hc].
  - eexists _, _, _. split; [reflexivity|exact Hc].
Qed.

(** C8. [write m] makes one call on the port: a write of exactly the
    UTF-8 bytes of the upper-cased [m + "\r\n"].  What it returns is
    what that call returns, the byte count the port reports. *)
Theorem write_sends_upper_utf8 (m : str) (data : bytes) (s : Session Com) :
  encode_utf8 (upper (m ++ [13; 10])) = Ok data ->
  run (write m) s =
    (fst (com_write data (_com s)),
     {| _com := snd (com_write data (_com s));
        calls := calls s ++ [Wrote data] |}).
Proof. intros H. apply run_write. exact H. Qed.

(** C10. Called with no arguments, [command name] puts on the wire
    the framing of [name + " "]: the name is followed by one space
    before the terminator.  For [abort] the bytes are ["ABORT \r\n"]. *)
Theorem command_without_args_trailing_space (name : str) (data : bytes) :
  encode_utf8 (upper ((name ++ lit " ") ++ term_chars)) = Ok data ->
  transmits (command name []) data
  /\ transmits abort (list_byte_of_string "ABORT " ++ crlf).
Proof.
  intros H. split.
  - apply (@command_transmits _ _ _ name [] []); [reflexivity|exact H].
  - unfold abort. apply transmits_then_ret.
    apply (@command_transmits _ _ _ (lit "abort") [] []); reflexivity.
Qed.

Lemma encode_utf8_error (t : str) (e : exn) :
  encode_utf8 t = Err e -> e = UnicodeEncodeError.
Proof.
  induction t as [|c t IH]; cbn [encode_utf8]; [discriminate|].
  destruct (encode_cp c) as [bs|e0] eqn:Ec.
  - destruct (encode_utf8 t) as [r|e1]; [discriminate|].
    intros H. apply IH. congruence.
  - intros H. assert (e0 = e) by congruence. subst e0. unfold encode_cp in Ec.
    repeat match type of Ec with
           | context [if ?x then _ else _] => destruct x
           end; congruence.
Qed.

Lemma last_char_empty (m : str) (e : exn) :
  last_char m = Err e -> m = [] /\ e = IndexError.
Proof.
  destruct m as [|a m]; [intros H; split; [reflexivity|]; cbv in H; congruence|].
  intros H. destruct (@last_char_nonempty (a :: m)) as [c Hc]; [discriminate|].
  congruence.
Qed.

(** C6, amended.  [query] returns an exchange exactly when the message
    is not empty, its framed text (with the ['?'], upper-cased, with the
    terminator) has a UTF-8 encoding, the port accepts the write of
    those bytes, and the two reads up to the terminator that follow each
    deliver a line that decodes.  It has then made exactly three calls
    on the port, one write and two reads; the first line, right-stripped
    of whitespace, is the statement and the second, right-stripped, the
    response.  In every other case it raises: [IndexError] on the empty
    message and [UnicodeEncodeError] on text without encoding, with
    nothing sent or read; the exception of the port after the write
    alone; the exception of the first read or of its decoding after one
    write and one read; that of the second after one write and two
    reads. *)
Theorem query_exchange (m : str) (s : Session Com) :
  (forall r s',
     run (query m) s = (Ok r, s') <->
     m <> [] /\
     exists d n l1 l2 t1 t2,
       encode_utf8
         (upper ((if List.last m 0 =? 63 then m else m ++ lit "?")
                 ++ term_chars)) = Ok d
       /\ plays (_com s) [Sent d n; Got crlf l1; Got crlf l2] (_com s')
       /\ decode_utf8 l1 = Ok t1
       /\ decode_utf8 l2 = Ok t2
       /\ r = {| statement := rstrip t1; response := rstrip t2 |}
       /\ calls s' = calls s ++ [Wrote d; ReadUntil crlf; ReadUntil crlf])
  /\ (forall e s',
        run (query m) s = (Err e, s') ->
        (m = [] /\ e = IndexError /\ s' = s)
        \/ (m <> []
            /\ encode_utf8
                 (upper ((if List.last m 0 =? 63 then m else m ++ lit "?")
                         ++ term_chars)) = Err e
            /\ e = UnicodeEncodeError /\ s' = s)
        \/ (m <> [] /\
            exists d,
              encode_utf8
                (upper ((if List.last m 0 =? 63 then m else m ++ lit "?")
                        ++ term_chars)) = Ok d
              /\ ((com_write d (_com s) = (Err e, _com s')
                   /\ calls s' = calls s ++ [Wrote d])
                  \/ (exists n c1,
                        plays (_com s) [Sent d n] c1
                        /\ (com_read_until crlf c1 = (Err e, _com s')
                            \/ exists l1,
                                com_read_until crlf c1 = (Ok l1, _com s')
                                /\ decode_utf8 l1 = Err e)
                        /\ calls s' = calls s ++ [Wrote d; ReadUntil crlf])
                  \/ (exists n l1 t1 c2,
                        plays (_com s) [Sent d n; Got crlf l1] c2
                        /\ decode_utf8 l1 = Ok t1
                        /\ (com_read_until crlf c2 = (Err e, _com s')
                            \/ exists l2,
                                com_read_until crlf c2 = (Ok l2, _com s')
                                /\ decode_utf8 l2 = Err e)
                        /\ calls s' = calls s ++ [Wrote d; ReadUntil crlf;
                                                  ReadUntil crlf])))).
Proof.
  assert (Hsteps := run_query_steps m s).
  destruct (last_char m) as [c|e0] eqn:Hc.
  2:{ destruct (last_char_empty _ Hc) as [-> ->]. split.
      - intros r s'. split.
        + intros H. rewrite Hsteps in H. discriminate.
        + intros [Hm _]. contradiction.
      - intros e s' H. rewrite Hsteps in H. left.
        split; [reflexivity|]. split; congruence. }
  assert (Hm : m <> []).
  { apply last_char_ok in Hc. destruct Hc as [p ->]. destruct p; discriminate. }
  rewrite (marked_last _ Hc) in Hsteps.
  match type of Hsteps with
  | _ = match encode_utf8 ?y with _ => _ end =>
      match goal with
      | |- context [encode_utf8 ?x] => change y with x in Hsteps
      end
  end.
  destruct (encode_utf8 _) as [d|e0] eqn:He.
  2:{ split.
      - intros r s'. split.
        + intros H. rewrite Hsteps in H. discriminate.
        + intros (_ & d & n & l1 & l2 & t1 & t2 & Hd & _). discriminate.
      - intros e s' H. rewrite Hsteps in H. right; left.
        assert (e0 = e) by congruence. subst e0.
        split; [exact Hm|]. split; [reflexivity|].
        split; [exact (encode_utf8_error _ He)|congruence]. }
  destruct (com_write d (_com s)) as [[n|e0] c1] eqn:Hw.
  2:{ split.
      - intros r s'. split.
        + intros H. rewrite Hsteps in H. discriminate.
        + intros (_ & d' & n & l1 & l2 & t1 & t2 & Hd & Hp & _).
          assert (d' = d) by congruence. subst d'.
          inversion Hp; subst. congruence.
      - intros e s' H. rewrite Hsteps in H. right; right.
        split; [exact Hm|]. exists d. split; [reflexivity|]. left.
        destruct s' as [c' k']. cbn [_com calls].
        split; congruence. }
  assert (Hp1 : plays (_com s) [Sent d n] c1)
    by (econstructor; [exact Hw|constructor]).
  destruct (com_read_until crlf c1) as [[l1|e0] c2] eqn:Hr1.
  2:{ split.
      - intros r s'. split.
        + intros H. rewrite Hsteps in H. discriminate.
        + intros (_ & d' & n' & l1 & l2 & t1 & t2 & Hd & Hp & _).
          assert (d' = d) by congruence. subst d'.
          inversion Hp as [| ? ? ? c1' ? ? Hw' Hq |]; subst.
          assert (c1' = c1) by congruence. subst c1'.
          inversion Hq; subst. congruence.
      - intros e s' H. rewrite Hsteps in H. right; right.
        split; [exact Hm|]. exists d. split; [reflexivity|]. right; left.
        exists n, c1. destruct s' as [c' k']. cbn [_com calls].
        split; [exact Hp1|]. split; [left|]; congruence. }
  destruct (decode_utf8 l1) as [t1|e0] eqn:Hd1.
  2:{ split.
      - intros r s'. split.
        + intros H. rewrite Hsteps in H. discriminate.
        + intros (_ & d' & n' & l1' & l2 & t1 & t2 & Hd & Hp & Ht1 & _).
          assert (d' = d) by congruence. subst d'.
          inversion Hp as [| ? ? ? c1' ? ? Hw' Hq |]; subst.
          assert (c1' = c1) by congruence. subst c1'.
          inversion Hq; subst. congruence.
      - intros e s' H. rewrite Hsteps in H. right; right.
        split; [exact Hm|]. exists d. split; [reflexivity|]. right; left.
        exists n, c1. destruct s' as [c' k']. cbn [_com calls].
        split; [exact Hp1|]. split; [right; exists l1; split|]; congruence. }
  assert (Hp2 : plays (_com s) [Sent d n; Got crlf l1] c2).
  { econstructor; [exact Hw|]. econstructor; [exact Hr1|constructor]. }
  destruct (com_read_until crlf c2) as [[l2|e0] c3] eqn:Hr2.
  2:{ split.
      - intros r s'. split.
        + intros H. rewrite Hsteps in H. discriminate.
        + intros (_ & d' & n' & l1' & l2 & t1' & t2 & Hd & Hp & _).
          assert (d' = d) by congruence. subst d'.
          inversion Hp as [| ? ? ? c1' ? ? Hw' Hq |]; subst.
          assert (c1' = c1) by congruence. subst c1'.
          inversion Hq as [| | ? ? ? c2' ? ? Hr1' Hq2]; subst.
          assert (c2' = c2) by congruence. subst c2'.
          inversion Hq2; subst. congruence.
      - intros e s' H. rewrite Hsteps in H. right; right.
        split; [exact Hm|]. exists d. split; [reflexivity|]. right; right.
        exists n, l1, t1, c2. destruct s' as [c' k']. cbn [_com calls].
        split; [exact Hp2|]. split; [exact Hd1|].
        split; [left|]; congruence. }
  destruct (decode_utf8 l2) as [t2|e0] eqn:Hd2.
  2:{ split.
      - intros r s'. split.
        + intros H. rewrite Hsteps in H. discriminate.
        + intros (_ & d' & n' & l1' & l2' & t1' & t2 & Hd & Hp & _ & Ht2 & _).
          assert (d' = d) by congruence. subst d'.
          inversion Hp as [| ? ? ? c1' ? ? Hw' Hq |]; subst.
          assert (c1' = c1) by congruence. subst c1'.
          inversion Hq as [| | ? ? ? c2' ? ? Hr1' Hq2]; subst.
          assert (c2' = c2) by congruence. subst c2'.
          inversion Hq2; subst. congruence.
      - intros e s' H. rewrite Hsteps in H. right; right.
        split; [exact Hm|]. exists d. split; [reflexivity|]. right; right.
        exists n, l1, t1, c2. destruct s' as [c' k']. cbn [_com calls].
        split; [exact Hp2|]. split; [exact Hd1|].
        split; [right; exists l2; split|]; congruence. }
  split.
  - intros r s'. split.
    + intros H. rewrite Hsteps in H. split; [exact Hm|].
      exists d, n, l1, l2, t1, t2. destruct s' as [c' k']. cbn [_com calls].
      assert (c3 = c') by congruence. subst c'.
      split; [reflexivity|]. split.
      { econstructor; [exact Hw|]. econstructor; [exact Hr1|].
        econstructor; [exact Hr2|constructor]. }
      split; [exact Hd1|]. split; [exact Hd2|]. split; congruence.
    + intros (_ & d' & n' & l1' & l2' & t1' & t2' & Hd & Hp & Ht1 & Ht2
              & -> & Hk).
      assert (d' = d) by congruence. subst d'.
      inversion Hp as [| ? ? ? c1' ? ? Hw' Hq |]; subst.
      assert (c1' = c1) by congruence. subst c1'.
      inversion Hq as [| | ? ? ? c2' ? ? Hr1' Hq2]; subst.
      assert (c2' = c2 /\ l1' = l1) by (split; congruence).
      destruct H as [-> ->].
      inversion Hq2 as [| | ? ? ? c3' ? ? Hr2' Hq3]; subst.
      inversion Hq3; subst.
      assert (t1' = t1) by congruence. subst t1'.
      assert (l2' = l2) by congruence. subst l2'.
      assert (t2' = t2) by congruence. subst t2'.
      rewrite Hsteps. destruct s' as [c' k']. cbn [_com calls] in *.
      assert (c3 = c') by congruence. subst. reflexivity.
  - intros e s' H. rewrite Hsteps in H. discriminate.
Qed.

(** C7, amended.  For a non-empty message [m], what [query] puts on
    the wire is the framing of a message [m'] that ends in ['?']: [m]
    itself when [m] ends in ['?'], and [m + "?"] otherwise.  So [query]
    adds at most one ['?'], and [m'] ends in ["??"] only when [m]
    already does. *)
Theorem query_question_mark (m : str) :
  m <> [] ->
  exists m' : str,
    (forall data, encode_utf8 (upper (m' ++ term_chars)) = Ok data ->
                  transmits (query m) data)
    /\ (exists p, m' = p ++ [63])
    /\ ((exists p, m = p ++ [63]) -> m' = m)
    /\ (~ (exists p, m = p ++ [63]) -> m' = m ++ [63])
    /\ ((exists p, m' = p ++ [63; 63]) -> exists p, m = p ++ [63; 63]).
Proof.
  intros Hm. destruct (last_char_nonempty Hm) as [c Hc].
  exists (marked c m). split; [|split; [|split; [|split]]].
  - intros data He. exact (query_transmits _ Hc He).
  - unfold marked. destruct (N.eqb_spec c 63) as [->|Hne]; simpl.
    + apply last_char_ok. exact Hc.
    + exists m. reflexivity.
  - intros Hp. apply last_char_ok in Hp. rewrite Hp in Hc.
    injection Hc as <-. reflexivity.
  - intros Hn. unfold marked. destruct (N.eqb_spec c 63) as [->|Hne]; simpl.
    + exfalso. apply Hn. apply last_char_ok. exact Hc.
    + reflexivity.
  - unfold marked. destruct (N.eqb_spec c 63) as [->|Hne]; simpl.
    + intros H. exact H.
    + intros [p Hp]. exfalso. apply Hne.
      apply last_char_ok in Hc. destruct Hc as [q ->].
      change (lit "?") with [63] in Hp.
      assert (E : (q ++ [c]) ++ [63] = (p ++ [63]) ++ [63])
        by (rewrite Hp, <- app_assoc; reflexivity).
      apply app_inj_tail in E. destruct E as [E _].
      apply app_inj_tail in E. destruct E as [_ E]. exact E.
Qed.

End LowLevelClaims.

(** ** Text that is ASCII *)

Section AsciiText.
Context {rt : PyRuntime}.

Lemma is_ascii_app (a b : str) :
  is_ascii (a ++ b) = is_ascii a && is_ascii b.
Proof. unfold is_ascii. apply forallb_app. Qed.

Lemma encode_utf8_ascii (s : str) :
  is_ascii s = true -> encode_utf8 s = Ok (ascii_bytes s).
Proof.
  induction s as [|c t IH]; simpl; [reflexivity|].
  intros H. apply andb_true_iff in H. destruct H as [Hc Ht].
  unfold encode_cp. change 0x80 with 128. rewrite Hc, (IH Ht). reflexivity.
Qed.

Lemma upper_app (a b : str) : upper (a ++ b) = upper a ++ upper b.
Proof. unfold upper. apply flat_map_app. Qed.

Lemma upper_is_ascii (s : str) :
  is_ascii s = true -> is_ascii (upper s) = true.
Proof.
  induction s as [|c t IH]; simpl; [reflexivity|].
  intros H. apply andb_true_iff in H. destruct H as [Hc Ht].
  change (is_ascii (upper_cp c ++ upper t) = true).
  rewrite is_ascii_app, (IH Ht), andb_true_r.
  unfold upper_cp. rewrite Hc.
  destruct ((97 <=? c) && (c <=? 122)); simpl; rewrite andb_true_r.
  - apply N.ltb_lt in Hc. apply N.ltb_lt. lia.
  - exact Hc.
Qed.

(** Text without lower-case letters is its own upper case. *)
Lemma upper_below_a (s : str) :
  forallb (fun c => c <? 97) s = true -> upper s = s.
Proof.
  induction s as [|c t IH]; simpl; [reflexivity|].
  intros H. apply andb_true_iff in H. destruct H as [Hc Ht].
  change (upper_cp c ++ upper t = c :: t). rewrite (IH Ht).
  unfold upper_cp. apply N.ltb_lt in Hc.
  replace (c <? 128) with true by (symmetry; apply N.ltb_lt; lia).
  replace (97 <=? c) with false by (symmetry; apply N.leb_gt; lia).
  reflexivity.
Qed.

Lemma dec_digits_digits (fuel : nat) (n : N) (acc : str) :
  forallb is_digit acc = true ->
  forallb is_digit (dec_digits fuel n acc) = true.
Proof.
  revert n acc. induction fuel as [|f IH]; intros n acc H; [exact H|].
  assert (Hd : forallb is_digit (48 + n mod 10 :: acc) = true).
  { cbn [forallb]. rewrite H, andb_true_r. unfold is_digit.
    assert (n mod 10 < 10) by (apply N.mod_lt; discriminate).
    set (d := n mod 10) in *. clearbody d.
    apply andb_true_iff. split; apply N.leb_le; lia. }
  cbn [dec_digits].
  destruct (n / 10 =? 0); [exact Hd|]. apply IH. exact Hd.
Qed.

Lemma dec_digits_nonempty (fuel : nat) (n : N) (acc : str) :
  acc <> [] -> dec_digits fuel n acc <> [].
Proof.
  revert n acc. induction fuel as [|f IH]; intros n acc H; [exact H|].
  cbn [dec_digits].
  destruct (n / 10 =? 0); [discriminate|]. apply IH. discriminate.
Qed.

Lemma decimal_digits (n : N) : forallb is_digit (decimal n) = true.
Proof. unfold decimal. apply dec_digits_digits. reflexivity. Qed.

Lemma decimal_nonempty (n : N) : decimal n <> [].
Proof.
  unfold decimal. cbn [dec_digits]. destruct (n / 10 =? 0); [discriminate|].
  apply dec_digits_nonempty. discriminate.
Qed.

Lemma pad3_digits (x : N) : x < 1000 -> forallb is_digit (pad3 x) = true.
Proof.
  intros H. unfold pad3, is_digit. cbn [forallb].
  assert (x / 100 < 10) by (apply N.Div0.div_lt_upper_bound; exact H).
  assert ((x / 10) mod 10 < 10) by (apply N.mod_lt; discriminate).
  assert (x mod 10 < 10) by (apply N.mod_lt; discriminate).
  set (a := x / 100) in *. set (b := (x / 10) mod 10) in *.
  set (c := x mod 10) in *. clearbody a b c.
  repeat (apply andb_true_iff; split); try reflexivity; apply N.leb_le; lia.
Qed.

Lemma digits_below_a (s : str) :
  forallb is_digit s = true -> forallb (fun c => c <? 97) s = true.
Proof.
  induction s as [|c t IH]; simpl; [reflexivity|].
  intros H. apply andb_true_iff in H. destruct H as [Hc Ht].
  rewrite (IH Ht), andb_true_r. unfold is_digit in Hc.
  apply andb_true_iff in Hc. destruct Hc as [_ Hc].
  apply N.leb_le in Hc. apply N.ltb_lt. lia.
Qed.

Lemma format_3f_finite (w : pyfloat) :
  is_finite w = true ->
  three_decimals (format_3f w)
  /\ forallb (fun c => c <? 97) (format_3f w) = true.
Proof.
  destruct w as [s|s| |s m e]; try discriminate; intros _.
  - split.
    + exists (sign_text s), [48], 48, 48, 48.
      repeat split; try discriminate.
      destruct s; [right|left]; reflexivity.
    + destruct s; reflexivity.
  - cbn [format_3f]. set (n := thousandths m e).
    assert (Hp : forallb is_digit (pad3 (n mod 1000)) = true)
      by (apply pad3_digits; apply N.mod_lt; discriminate).
    split.
    + exists (sign_text s), (decimal (n / 1000)),
        (48 + n mod 1000 / 100), (48 + (n mod 1000 / 10) mod 10),
        (48 + (n mod 1000) mod 10).
      repeat split.
      * destruct s; [right|left]; reflexivity.
      * apply decimal_nonempty.
      * rewrite forallb_app. apply andb_true_iff. split.
        -- apply decimal_digits.
        -- exact Hp.
    + rewrite forallb_app. apply andb_true_iff. split.
      { destruct s; reflexivity. }
      rewrite forallb_app. apply andb_true_iff. split.
      { apply digits_below_a, decimal_digits. }
      rewrite forallb_app. apply andb_true_iff. split.
      { reflexivity. }
      apply digits_below_a, Hp.
Qed.

Lemma below_a_is_ascii (s : str) :
  forallb (fun c => c <? 97) s = true -> is_ascii s = true.
Proof.
  induction s as [|c t IH]; simpl; [reflexivity|].
  intros H. apply andb_true_iff in H. destruct H as [Hc Ht].
  rewrite (IH Ht), andb_true_r.
  apply N.ltb_lt in Hc. apply N.ltb_lt. lia.
Qed.

Lemma format_3f_is_ascii (w : pyfloat) : is_ascii (format_3f w) = true.
Proof.
  destruct (is_finite w) eqn:F.
  - apply below_a_is_ascii. apply format_3f_finite. exact F.
  - destruct w as [s|s| |s m e]; try discriminate;
      try destruct s; reflexivity.
Qed.

End AsciiText.

(** ** High level methods *)

Section HighLevelClaims.
Context {rt : PyRuntime} {Com : Type} {ser : Serial Com}.

Lemma str_eqb_true_iff (a b : str) : str_eqb a b = true <-> a = b.
Proof.
  unfold str_eqb. destruct (list_eq_dec N.eq_dec a b); split;
    intros H; try reflexivity; try assumption; try discriminate.
  contradiction.
Qed.

Lemma filter_in_range (p : Z) :
  (1 <= p <= 6)%Z <-> ((p <? MIN_VAL)%Z || (p >? MAX_VAL)%Z) = false.
Proof.
  unfold MIN_VAL, MAX_VAL. rewrite orb_false_iff, Z.ltb_ge, Z.gtb_ltb, Z.ltb_ge.
  lia.
Qed.

Lemma run_set_filter_valid (p : Z) (s : Session Com) :
  (1 <= p <= 6)%Z ->
  run (set_filter p) s =
  run (bind (command (lit "filter") [PyInt p]) (fun _ => ret tt)) s.
Proof.
  intros H. apply filter_in_range in H.
  unfold set_filter, _validate_filter. rewrite run_bind, H. reflexivity.
Qed.

Lemma filter_wire (p : Z) :
  (1 <= p <= 6)%Z ->
  map_str [PyInt p] = Ok [[48 + Z.to_N p]]
  /\ encode_utf8
       (upper ((lit "filter" ++ lit " " ++ join (lit " ") [[48 + Z.to_N p]])
               ++ term_chars))
     = Ok (filter_command_bytes p).
Proof.
  intros H.
  assert (C : (p = 1 \/ p = 2 \/ p = 3 \/ p = 4 \/ p = 5 \/ p = 6)%Z) by lia.
  destruct C as [->|[->|[->|[->|[->| ->]]]]]; split; reflexivity.
Qed.

(** C3. For a position in [1, 6] the method puts the filter command on
    the wire, and when the port accepts it and answers with a line that
    decodes it returns without raising.  For any other position it
    raises the [ValueError] of the validation and the port is not
    called at all. *)
Theorem set_filter_range (p : Z) (s : Session Com) :
  ((1 <= p <= 6)%Z ->
     transmits (set_filter p) (filter_command_bytes p)
     /\ forall n l t c',
         plays (_com s) [Sent (filter_command_bytes p) n; Got crlf l] c' ->
         decode_utf8 l = Ok t ->
         run (set_filter p) s =
           (Ok tt,
            {| _com := c';
               calls := calls s
                          ++ [Wrote (filter_command_bytes p); ReadUntil crlf] |}))
  /\ (~ (1 <= p <= 6)%Z ->
      run (set_filter p) s =
        (Err (ValueError "Invalid filter value. Must be between 1 and 6."), s)).
Proof.
  split.
  - intros H. destruct (filter_wire H) as [Ha He]. split.
    + intros s0. rewrite (run_set_filter_valid s0 H).
      revert s0. apply transmits_then_ret.
      exact (command_transmits _ _ Ha He).
    + intros n l t c' Hp Hd. rewrite (run_set_filter_valid s H).
      destruct (command_plays _ _ s Ha He Hp Hd) as (c2 & Hc & Hp2).
      inversion Hp2; subst. rewrite run_bind, Hc. reflexivity.
  - intros H. unfold set_filter, _validate_filter. rewrite run_bind.
    destruct ((p <? MIN_VAL)%Z || (p >? MAX_VAL)%Z) eqn:E.
    + reflexivity.
    + exfalso. apply H. apply filter_in_range. exact E.
Qed.

(** C1 (the code departs from it).  Whatever the filter number and the
    label, [filter_label] raises [TypeError] at its first statement,
    the call of the validation without its argument; the port is not
    called, so nothing is set and nothing is queried. *)
Theorem filter_label_raises_TypeError (filter : Z) (label : option str)
        (s : Session Com) :
  run (filter_label filter label) s = (Err TypeError, s).
Proof. reflexivity. Qed.

(** C2 (the code departs from it).  For a label longer than 8
    characters nothing is written, but what is raised is the
    [TypeError] of the call of the validation, not a [ValueError]: the
    length check is never reached. *)
Theorem filter_label_long_label_TypeError (filter : Z) (label : str)
        (s : Session Com) :
  (8 < List.length label)%nat ->
  run (filter_label filter (Some label)) s = (Err TypeError, s)
  /\ forall msg, fst (run (filter_label filter (Some label)) s)
                 <> Err (ValueError msg).
Proof.
  intros _. split; [reflexivity|].
  intros msg. simpl. discriminate.
Qed.

Lemma rstrip_spaces (ws : str) : forallb isspace ws = true -> rstrip ws = [].
Proof.
  induction ws as [|c ws IH]; [reflexivity|].
  cbn [forallb rstrip]. intros H. apply andb_true_iff in H.
  destruct H as [Hc Hw]. rewrite (IH Hw), Hc. reflexivity.
Qed.

Lemma rstrip_app_spaces (x ws : str) :
  forallb isspace ws = true -> rstrip (x ++ ws) = rstrip x.
Proof.
  intros H. induction x as [|c x IH]; cbn [app rstrip].
  - apply rstrip_spaces. exact H.
  - rewrite IH. reflexivity.
Qed.

Lemma rstrip_suffix (t : str) :
  exists ws, t = rstrip t ++ ws /\ forallb isspace ws = true.
Proof.
  induction t as [|c t (ws & Ht & Hw)].
  - exists []. split; reflexivity.
  - cbn [rstrip]. destruct (rstrip t) as [|x r] eqn:E.
    + cbn [app] in Ht. subst ws. destruct (isspace c) eqn:Ec.
      * exists (c :: t). split; [reflexivity|].
        cbn [forallb]. rewrite Ec. exact Hw.
      * exists t. split; [reflexivity|exact Hw].
    + exists ws. split; [|exact Hw]. cbn [app]. f_equal. exact Ht.
Qed.

Lemma shutter_query_wire :
  last_char (lit "shutter") = Ok 114
  /\ encode_utf8 (upper (marked 114 (lit "shutter") ++ term_chars))
     = Ok (list_byte_of_string "SHUTTER?" ++ crlf).
Proof. split; reflexivity. Qed.

(** C9, amended.  When the shutter query is accepted and answered with
    two lines that decode, [shuttered] returns [True] exactly when the
    second line as the device sent it is the one character ["C"]
    followed by whitespace only: the terminator, and any other
    whitespace before or after it, all of which the code strips.  It
    returns [False] for every other line, in particular for a line of
    whitespace only and for no line at all.  And it returns a value only
    after such an exchange: in every other case it raises. *)
Theorem shuttered_true_iff_C (s : Session Com) :
  (forall n l1 l2 t1 t2 c',
     plays (_com s)
           [Sent (list_byte_of_string "SHUTTER?" ++ crlf) n;
            Got crlf l1; Got crlf l2] c' ->
     decode_utf8 l1 = Ok t1 ->
     decode_utf8 l2 = Ok t2 ->
     exists b : bool,
       run shuttered s =
         (Ok b,
          {| _com := c';
             calls := calls s
                        ++ [Wrote (list_byte_of_string "SHUTTER?" ++ crlf);
                            ReadUntil crlf; ReadUntil crlf] |})
       /\ (b = true <->
           exists ws, t2 = lit "C" ++ ws /\ forallb isspace ws = true)
       /\ (forallb isspace t2 = true -> b = false))
  /\ (forall b s',
        run shuttered s = (Ok b, s') ->
        exists n l1 l2 t1 t2,
          plays (_com s)
                [Sent (list_byte_of_string "SHUTTER?" ++ crlf) n;
                 Got crlf l1; Got crlf l2] (_com s')
          /\ decode_utf8 l1 = Ok t1
          /\ decode_utf8 l2 = Ok t2).
Proof.
  destruct shutter_query_wire as [Hc He]. split.
  - intros n l1 l2 t1 t2 c' Hp H1 H2.
    destruct (query_plays _ s Hc He Hp H1 H2) as (c3 & Hq & Hp3).
    inversion Hp3; subst.
    exists (str_eqb (rstrip t2) (lit "C")). split; [|split].
    + unfold shuttered. rewrite run_bind, Hq. reflexivity.
    + rewrite str_eqb_true_iff. split.
      * intros Hr. destruct (rstrip_suffix t2) as (ws & Ht & Hw).
        exists ws. rewrite Hr in Ht. split; assumption.
      * intros (ws & -> & Hw). rewrite (rstrip_app_spaces _ _ Hw).
        reflexivity.
    + intros Hw. rewrite (rstrip_spaces _ Hw). reflexivity.
  - intros b s' H. unfold shuttered in H.
    rewrite run_bind, run_query_steps, Hc, He in H.
    destruct (com_write _ (_com s)) as [[n|e] c1] eqn:Hw; [|discriminate].
    destruct (com_read_until crlf c1) as [[l1|e] c2] eqn:Hr1; [|discriminate].
    destruct (decode_utf8 l1) as [t1|e] eqn:Hd1; [|discriminate].
    destruct (com_read_until crlf c2) as [[l2|e] c3] eqn:Hr2; [|discriminate].
    destruct (decode_utf8 l2) as [t2|e] eqn:Hd2; [|discriminate].
    exists n, l1, l2, t1, t2. destruct s' as [c' k']. cbn [_com].
    rewrite run_ret in H.
    assert (c3 = c') by congruence. subst c'.
    split; [|split; [exact Hd1|exact Hd2]].
    econstructor; [exact Hw|]. econstructor; [exact Hr1|].
    econstructor; [exact Hr2|constructor].
Qed.

End HighLevelClaims.

Section GratingAndGoto.
Context {rt : PyRuntime} {Com : Type} {ser : Serial Com}.

Lemma py_int_error (s : str) (e : exn) :
  py_int s = Err e -> exists msg, e = ValueError msg.
Proof.
  unfold py_int, invalid_int. intros H.
  repeat match type of H with
         | context [match ?x with _ => _ end] => destruct x
         end;
    try discriminate; injection H as <-; eexists; reflexivity.
Qed.

Lemma grat_query_wire :
  last_char (lit "grat") = Ok 116
  /\ encode_utf8 (upper (marked 116 (lit "grat") ++ term_chars))
     = Ok (list_byte_of_string "GRAT?" ++ crlf).
Proof. split; reflexivity. Qed.

(** C4, amended.  When the grating query is accepted and answered with
    two lines that decode: for the response ["1,1200,VIS"] the getter
    returns the dictionary with number 1, lines 1200 and label ["VIS"];
    for a response of exactly two comma-separated fields it returns no
    dictionary and raises a built-in exception: [IndexError] when both
    fields are integers for [int()], and otherwise the [ValueError] of
    [int()] on the first field that is not. *)
Theorem grating_parse (n : Z) (l1 l2 : bytes) (t1 t2 : str)
        (s : Session Com) (c' : Com) :
  plays (_com s)
        [Sent (list_byte_of_string "GRAT?" ++ crlf) n;
         Got crlf l1; Got crlf l2] c' ->
  decode_utf8 l1 = Ok t1 ->
  decode_utf8 l2 = Ok t2 ->
  (rstrip t2 = lit "1,1200,VIS" ->
   run grating s =
     (Ok [(lit "number", PyInt 1); (lit "lines", PyInt 1200);
          (lit "label", PyStr (lit "VIS"))],
      {| _com := c';
         calls := calls s ++ [Wrote (list_byte_of_string "GRAT?" ++ crlf);
                              ReadUntil crlf; ReadUntil crlf] |}))
  /\ (forall a b : str,
        split 44 (rstrip t2) = [a; b] ->
        (forall za zb,
           py_int a = Ok za -> py_int b = Ok zb ->
           run grating s =
             (Err IndexError,
              {| _com := c';
                 calls := calls s
                            ++ [Wrote (list_byte_of_string "GRAT?" ++ crlf);
                                ReadUntil crlf; ReadUntil crlf] |}))
        /\ (forall e,
              py_int a = Err e ->
              run grating s =
                (Err e,
                 {| _com := c';
                    calls := calls s
                               ++ [Wrote (list_byte_of_string "GRAT?" ++ crlf);
                                   ReadUntil crlf; ReadUntil crlf] |})
              /\ exists msg, e = ValueError msg)
        /\ (forall za e,
              py_int a = Ok za -> py_int b = Err e ->
              run grating s =
                (Err e,
                 {| _com := c';
                    calls := calls s
                               ++ [Wrote (list_byte_of_string "GRAT?" ++ crlf);
                                   ReadUntil crlf; ReadUntil crlf] |})
              /\ exists msg, e = ValueError msg)).
Proof.
  intros Hp H1 H2. destruct grat_query_wire as [Hc He].
  destruct (query_plays _ s Hc He Hp H1 H2) as (c3 & Hq & Hp3).
  inversion Hp3; subst. split.
  - intros Hr. unfold grating. rewrite run_bind, Hq.
    cbn [response]. rewrite Hr. reflexivity.
  - intros a b Hs.
    assert (Hrun : run grating s =
              match py_int a with
              | Err e => (Err e, {| _com := c';
                   calls := calls s
                              ++ [Wrote (list_byte_of_string "GRAT?" ++ crlf);
                                  ReadUntil crlf; ReadUntil crlf] |})
              | Ok _ =>
                match py_int b with
                | Err e => (Err e, {| _com := c';
                     calls := calls s
                                ++ [Wrote (list_byte_of_string "GRAT?" ++ crlf);
                                    ReadUntil crlf; ReadUntil crlf] |})
                | Ok _ => (Err IndexError, {| _com := c';
                     calls := calls s
                                ++ [Wrote (list_byte_of_string "GRAT?" ++ crlf);
                                    ReadUntil crlf; ReadUntil crlf] |})
                end
              end).
    { unfold grating. rewrite run_bind, Hq. cbn [response]. rewrite Hs.
      rewrite run_bind, run_lift. cbn [getitem nth_error].
      rewrite run_bind, run_lift.
      destruct (py_int a) as [za|ea]; [|reflexivity].
      rewrite run_bind, run_lift. cbn [getitem nth_error].
      rewrite run_bind, run_lift.
      destruct (py_int b) as [zb|eb]; [|reflexivity].
      rewrite run_bind, run_lift. reflexivity. }
    split; [|split].
    + intros za zb Ha Hb. rewrite Hrun, Ha, Hb. reflexivity.
    + intros e Ha. split; [|exact (py_int_error _ Ha)].
      rewrite Hrun, Ha. reflexivity.
    + intros za e Ha Hb. split; [|exact (py_int_error _ Hb)].
      rewrite Hrun, Ha, Hb. reflexivity.
Qed.

Lemma gowave_wire (w : pyfloat) :
  encode_utf8
    (upper ((lit "gowave" ++ lit " " ++ join (lit " ") [format_3f w])
            ++ term_chars))
  = Ok (list_byte_of_string "GOWAVE " ++ ascii_bytes (upper (format_3f w))
          ++ crlf).
Proof.
  cbn [join]. rewrite encode_utf8_ascii.
  - rewrite !upper_app. unfold ascii_bytes. rewrite !map_app. reflexivity.
  - apply upper_is_ascii. rewrite !is_ascii_app, format_3f_is_ascii.
    reflexivity.
Qed.

Lemma wave_query_wire :
  last_char (lit "wave") = Ok 101
  /\ encode_utf8 (upper (marked 101 (lit "wave") ++ term_chars))
     = Ok (list_byte_of_string "WAVE?" ++ crlf).
Proof. split; reflexivity. Qed.

(** C5. [goto w] writes the [gowave] command with [w] formatted by
    [.3f], reads the acknowledgement, then queries the position and
    returns what [float()] makes of the response to that query: the
    value the device reports, whatever [w] was.  For a finite [w] the
    text sent has exactly three digits after the point and is not
    changed by the upper-casing. *)
Theorem goto_sends_3f_and_requeries (w : pyfloat) (n1 n2 : Z)
        (ack l1 l2 : bytes) (a t1 t2 : str) (s : Session Com) (c' : Com) :
  plays (_com s)
        [Sent (list_byte_of_string "GOWAVE "
                 ++ ascii_bytes (upper (format_3f w)) ++ crlf) n1;
         Got crlf ack;
         Sent (list_byte_of_string "WAVE?" ++ crlf) n2;
         Got crlf l1; Got crlf l2] c' ->
  decode_utf8 ack = Ok a ->
  decode_utf8 l1 = Ok t1 ->
  decode_utf8 l2 = Ok t2 ->
  run (goto w) s =
    (py_float (rstrip t2),
     {| _com := c';
        calls := calls s
          ++ [Wrote (list_byte_of_string "GOWAVE "
                       ++ ascii_bytes (upper (format_3f w)) ++ crlf);
              ReadUntil crlf;
              Wrote (list_byte_of_string "WAVE?" ++ crlf);
              ReadUntil crlf; ReadUntil crlf] |})
  /\ (is_finite w = true ->
      three_decimals (format_3f w) /\ upper (format_3f w) = format_3f w).
Proof.
  intros Hp Ha H1 H2. split.
  - unfold goto. rewrite run_bind.
    destruct (command_plays (lit "gowave") [PyStr (format_3f w)] s
                (ss := [format_3f w]) eq_refl (gowave_wire w) Hp Ha)
      as (c2 & Hc & Hp2).
    rewrite Hc. unfold position. rewrite run_bind.
    destruct wave_query_wire as [Hl He].
    set (s2 := {| _com := c2; calls := _ |}).
    destruct (query_plays _ s2 Hl He Hp2 H1 H2) as (c3 & Hq & Hp3).
    inversion Hp3; subst. rewrite Hq. cbn [response]. rewrite run_lift.
    unfold s2. cbn [calls]. rewrite <- app_assoc. reflexivity.
  - intros F. destruct (format_3f_finite w F) as [H3 Hb].
    split; [exact H3|]. apply upper_below_a. exact Hb.
Qed.

End GratingAndGoto.

(** ** Shapes of the exchanges *)

Section ExchangeShapes.
Context {rt : PyRuntime} {Com : Type} {ser : Serial Com}.

Ltac split_steps :=
  repeat match goal with
         | |- context [match ?x with _ => _ end] => destruct x eqn:?
         end.

(** X1. Whatever the message and whatever the port does, the calls
    [query] adds are a write, then a read, then a read, cut short at the
    first failure: it never reads before it has written and never
    writes twice, and anything short of the three calls ends in an
    exception. *)
Theorem query_call_sequence (m : str) (s : Session Com) :
  (calls (snd (run (query m) s)) = calls s
   /\ exists e, fst (run (query m) s) = Err e)
  \/ (exists d, calls (snd (run (query m) s)) = calls s ++ [Wrote d]
               /\ exists e, fst (run (query m) s) = Err e)
  \/ (exists d, calls (snd (run (query m) s))
                = calls s ++ [Wrote d; ReadUntil crlf]
               /\ exists e, fst (run (query m) s) = Err e)
  \/ (exists d, calls (snd (run (query m) s))
                = calls s ++ [Wrote d; ReadUntil crlf; ReadUntil crlf]).
Proof.
  rewrite run_query_steps. split_steps; cbn [fst snd calls].
  all: try (left; split; [reflexivity|eexists; reflexivity]).
  all: try (right; left; eexists; split; [reflexivity|eexists; reflexivity]).
  all: try (right; right; left; eexists; split;
            [reflexivity|eexists; reflexivity]).
  all: right; right; right; eexists; reflexivity.
Qed.

Lemma query_calls_cases (m : str) (s : Session Com) :
  calls (snd (run (query m) s)) = calls s
  \/ (exists d, calls (snd (run (query m) s)) = calls s ++ [Wrote d])
  \/ (exists d, calls (snd (run (query m) s))
                = calls s ++ [Wrote d; ReadUntil crlf])
  \/ (exists d, calls (snd (run (query m) s))
                = calls s ++ [Wrote d; ReadUntil crlf; ReadUntil crlf]).
Proof.
  rewrite run_query_steps. split_steps; cbn [fst snd calls].
  all: try (left; reflexivity).
  all: try (right; left; eexists; reflexivity).
  all: try (right; right; left; eexists; reflexivity).
  all: right; right; right; eexists; reflexivity.
Qed.

(** X2. The calls [command] adds are one write then one read, cut
    short at the first failure; a result is returned only after both. *)
Theorem command_call_sequence (cmd : str) (args : list pyval)
        (s : Session Com) :
  (calls (snd (run (command cmd args) s)) = calls s
   /\ exists e, fst (run (command cmd args) s) = Err e)
  \/ (exists d, calls (snd (run (command cmd args) s)) = calls s ++ [Wrote d]
               /\ exists e, fst (run (command cmd args) s) = Err e)
  \/ (exists d, calls (snd (run (command cmd args) s))
                = calls s ++ [Wrote d; ReadUntil crlf]).
Proof.
  rewrite run_command_steps. split_steps; cbn [fst snd calls].
  all: try (left; split; [reflexivity|eexists; reflexivity]).
  all: try (right; left; eexists; split; [reflexivity|eexists; reflexivity]).
  all: right; right; eexists; reflexivity.
Qed.

Lemma rstrip_no_trailing_space (t : str) : no_trailing_space (rstrip t).
Proof.
  induction t as [|a t IH]; intros p c H.
  - destruct p; discriminate.
  - cbn [rstrip] in H. destruct (rstrip t) as [|x r] eqn:E.
    + destruct (isspace a) eqn:Ea.
      * destruct p; discriminate.
      * destruct p as [|b p]; [|destruct p; discriminate].
        injection H as <-. exact Ea.
    + destruct p as [|b p]; [discriminate|].
      injection H as _ H. exact (IH p c H).
Qed.

(** X3. What [query] and [command] return never ends in a whitespace
    character: neither of the two fields of the exchange, nor the
    acknowledgement, can end in the terminator or in a space. *)
Theorem exchange_results_stripped (s : Session Com) :
  (forall m r s', run (query m) s = (Ok r, s') ->
                  no_trailing_space (statement r)
                  /\ no_trailing_space (response r))
  /\ (forall cmd args t s', run (command cmd args) s = (Ok t, s') ->
                            no_trailing_space t).
Proof.
  split.
  - intros m r s' H. rewrite run_query_steps in H.
    repeat match type of H with
           | context [match ?x with _ => _ end] => destruct x
           end; try discriminate.
    injection H as <- _. split; apply rstrip_no_trailing_space.
  - intros cmd args t s' H. rewrite run_command_steps in H.
    repeat match type of H with
           | context [match ?x with _ => _ end] => destruct x
           end; try discriminate.
    injection H as <- _. apply rstrip_no_trailing_space.
Qed.

(** X4. Writing the question mark oneself changes nothing: for a
    non-empty message that does not end in ['?'], [query (m + "?")] and
    [query m] are the same computation. *)
Theorem query_explicit_mark (m : str) (s : Session Com) :
  m <> [] -> List.last m 0 <> 63 ->
  run (query (m ++ lit "?")) s = run (query m) s.
Proof.
  intros Hm Hl. destruct (last_char_nonempty Hm) as [c Hc].
  assert (Hne : c <> 63) by (rewrite <- (last_char_last _ Hc); exact Hl).
  assert (Hq : last_char (m ++ lit "?") = Ok 63)
    by (apply last_char_ok; exists m; reflexivity).
  rewrite !run_query_steps, Hq, Hc.
  assert (E : marked 63 (m ++ lit "?") = marked c m).
  { unfold marked. destruct (N.eqb_spec c 63); [contradiction|reflexivity]. }
  rewrite E. reflexivity.
Qed.

(** X5. An exception of the port on the write leaves [query] and
    [command] unchanged and ends them there: one call on the port, no
    read, no second attempt. *)
Theorem write_failure_ends_exchange (s : Session Com) (d : bytes) (e : exn)
        (c1 : Com) :
  com_write d (_com s) = (Err e, c1) ->
  (forall m, m <> [] ->
     encode_utf8
       (upper ((if List.last m 0 =? 63 then m else m ++ lit "?") ++ term_chars))
       = Ok d ->
     run (query m) s =
       (Err e, {| _com := c1; calls := calls s ++ [Wrote d] |}))
  /\ (forall cmd args ss,
        map_str args = Ok ss ->
        encode_utf8
          (upper ((cmd ++ lit " " ++ join (lit " ") ss) ++ term_chars)) = Ok d ->
        run (command cmd args) s =
          (Err e, {| _com := c1; calls := calls s ++ [Wrote d] |})).
Proof.
  intros Hw. split.
  - intros m Hm He. destruct (last_char_nonempty Hm) as [c Hc].
    assert (He' : encode_utf8 (upper (marked c m ++ term_chars)) = Ok d)
      by (rewrite (marked_last _ Hc); exact He).
    rewrite run_query_steps, Hc, He', Hw. reflexivity.
  - intros cmd args ss Ha He.
    rewrite run_command_steps, Ha, He, Hw. reflexivity.
Qed.

(** X6. When the first line read by [query] is not UTF-8 the query
    stops with [UnicodeDecodeError] after that one read: the second
    line is not read and stays in the port. *)
Theorem query_undecodable_echo (m : str) (d : bytes) (n : Z) (l1 : bytes)
        (e : exn) (s : Session Com) (c' : Com) :
  m <> [] ->
  encode_utf8
    (upper ((if List.last m 0 =? 63 then m else m ++ lit "?") ++ term_chars))
    = Ok d ->
  plays (_com s) [Sent d n; Got crlf l1] c' ->
  decode_utf8 l1 = Err e ->
  run (query m) s =
    (Err e, {| _com := c'; calls := calls s ++ [Wrote d; ReadUntil crlf] |})
  /\ e = UnicodeDecodeError.
Proof.
  intros Hm He Hp Hd. destruct (last_char_nonempty Hm) as [c Hc].
  assert (He' : encode_utf8 (upper (marked c m ++ term_chars)) = Ok d)
    by (rewrite (marked_last _ Hc); exact He).
  inversion Hp as [| ? ? ? c1 ? ? Hw Hp1 |]; subst.
  inversion Hp1 as [| | ? ? ? c2 ? ? Hr Hp2]; subst.
  inversion Hp2; subst.
  split.
  - rewrite run_query_steps, Hc, He', Hw, Hr, Hd. reflexivity.
  - clear - Hd. revert e Hd.
    assert (G : forall bs e, decode_utf8 bs = Err e -> e = UnicodeDecodeError).
    { intros bs. remember (List.length bs) as k eqn:Hk.
      revert bs Hk. induction k as [k IH] using lt_wf_ind.
      intros bs Hk e H. destruct bs as [|b0 r0]; [discriminate|].
      cbn [decode_utf8] in H. cbv zeta in H.
      repeat match type of H with
             | context [if ?x then _ else _] => destruct x
             | context [match ?x with _ => _ end] =>
                 lazymatch x with
                 | decode_utf8 _ => fail
                 | _ => destruct x
                 end
             end;
        try (injection H as <-; reflexivity);
        match type of H with
        | cons_ok _ (decode_utf8 ?t) = _ =>
            destruct (decode_utf8 t) eqn:Ht; [discriminate|];
            injection H as <-;
            refine (IH (List.length t) _ t eq_refl _ Ht);
            subst k; cbn [List.length]; lia
        end. }
    exact (G l1).
Qed.

End ExchangeShapes.

(** ** What is written can be read back *)

Section RoundTrip.
Context {rt : PyRuntime} {Com : Type} {ser : Serial Com}.

Ltac nlia := zify; Z.quot_rem_to_equations; Z.div_mod_to_equations; lia.

Ltac b2p H :=
  repeat rewrite ?andb_true_iff, ?andb_false_iff, ?negb_true_iff,
    ?negb_false_iff, ?N.leb_le, ?N.ltb_lt, ?N.leb_gt, ?N.ltb_ge in H.

Lemma N_of_byte_of_N (n : N) : n < 256 -> N_of_byte (byte_of_N n) = n.
Proof.
  intros H. unfold N_of_byte, byte_of_N. rewrite N.mod_small by exact H.
  destruct (Byte.of_N n) as [b|] eqn:E.
  - apply Byte.to_of_N. exact E.
  - apply Byte.of_N_None_iff in E. lia.
Qed.

Lemma decode_utf8_1 (b0 : byte) (r : bytes) :
  N_of_byte b0 < 0x80 ->
  decode_utf8 (b0 :: r) = cons_ok (N_of_byte b0) (decode_utf8 r).
Proof.
  intros H. cbn [decode_utf8]. cbv zeta.
  apply N.ltb_lt in H. rewrite H. reflexivity.
Qed.

Lemma decode_utf8_2 (b0 b1 : byte) (r : bytes) :
  0xC2 <= N_of_byte b0 <= 0xDF -> 0x80 <= N_of_byte b1 <= 0xBF ->
  decode_utf8 (b0 :: b1 :: r) =
    cons_ok ((N_of_byte b0 - 0xC0) * 64 + (N_of_byte b1 - 0x80))
            (decode_utf8 r).
Proof.
  intros H0 H1. cbn [decode_utf8]. cbv zeta. unfold is_cont.
  replace (N_of_byte b0 <? 0x80) with false by (symmetry; apply N.ltb_ge; lia).
  replace (0xC2 <=? N_of_byte b0) with true by (symmetry; apply N.leb_le; lia).
  replace (N_of_byte b0 <=? 0xDF) with true by (symmetry; apply N.leb_le; lia).
  replace (0x80 <=? N_of_byte b1) with true by (symmetry; apply N.leb_le; lia).
  replace (N_of_byte b1 <=? 0xBF) with true by (symmetry; apply N.leb_le; lia).
  reflexivity.
Qed.

Lemma decode_utf8_3 (b0 b1 b2 : byte) (r : bytes) :
  0xE0 <= N_of_byte b0 <= 0xEF ->
  0x80 <= N_of_byte b1 <= 0xBF -> 0x80 <= N_of_byte b2 <= 0xBF ->
  0x800 <= (N_of_byte b0 - 0xE0) * 4096 + (N_of_byte b1 - 0x80) * 64
           + (N_of_byte b2 - 0x80) ->
  ~ (0xD800 <= (N_of_byte b0 - 0xE0) * 4096 + (N_of_byte b1 - 0x80) * 64
               + (N_of_byte b2 - 0x80) <= 0xDFFF) ->
  decode_utf8 (b0 :: b1 :: b2 :: r) =
    cons_ok ((N_of_byte b0 - 0xE0) * 4096 + (N_of_byte b1 - 0x80) * 64
             + (N_of_byte b2 - 0x80))
            (decode_utf8 r).
Proof.
  intros H0 H1 H2 Hv Hs. cbn [decode_utf8]. cbv zeta. unfold is_cont.
  set (v := (N_of_byte b0 - 0xE0) * 4096 + (N_of_byte b1 - 0x80) * 64
            + (N_of_byte b2 - 0x80)) in *.
  replace (N_of_byte b0 <? 0x80) with false by (symmetry; apply N.ltb_ge; lia).
  replace (0xC2 <=? N_of_byte b0) with true by (symmetry; apply N.leb_le; lia).
  replace (N_of_byte b0 <=? 0xDF) with false by (symmetry; apply N.leb_gt; lia).
  replace (0xE0 <=? N_of_byte b0) with true by (symmetry; apply N.leb_le; lia).
  replace (N_of_byte b0 <=? 0xEF) with true by (symmetry; apply N.leb_le; lia).
  replace (0x80 <=? N_of_byte b1) with true by (symmetry; apply N.leb_le; lia).
  replace (N_of_byte b1 <=? 0xBF) with true by (symmetry; apply N.leb_le; lia).
  replace (0x80 <=? N_of_byte b2) with true by (symmetry; apply N.leb_le; lia).
  replace (N_of_byte b2 <=? 0xBF) with true by (symmetry; apply N.leb_le; lia).
  replace (0x800 <=? v) with true by (symmetry; apply N.leb_le; lia).
  replace ((0xD800 <=? v) && (v <=? 0xDFFF)) with false.
  - reflexivity.
  - symmetry. apply andb_false_iff.
    destruct (N.leb_spec 0xD800 v); [right|left; reflexivity].
    apply N.leb_gt. lia.
Qed.

Lemma decode_utf8_4 (b0 b1 b2 b3 : byte) (r : bytes) :
  0xF0 <= N_of_byte b0 <= 0xF4 ->
  0x80 <= N_of_byte b1 <= 0xBF -> 0x80 <= N_of_byte b2 <= 0xBF ->
  0x80 <= N_of_byte b3 <= 0xBF ->
  0x10000 <= (N_of_byte b0 - 0xF0) * 262144 + (N_of_byte b1 - 0x80) * 4096
             + (N_of_byte b2 - 0x80) * 64 + (N_of_byte b3 - 0x80)
          < 0x110000 ->
  decode_utf8 (b0 :: b1 :: b2 :: b3 :: r) =
    cons_ok ((N_of_byte b0 - 0xF0) * 262144 + (N_of_byte b1 - 0x80) * 4096
             + (N_of_byte b2 - 0x80) * 64 + (N_of_byte b3 - 0x80))
            (decode_utf8 r).
Proof.
  intros H0 H1 H2 H3 Hv. cbn [decode_utf8]. cbv zeta. unfold is_cont.
  set (v := (N_of_byte b0 - 0xF0) * 262144 + (N_of_byte b1 - 0x80) * 4096
            + (N_of_byte b2 - 0x80) * 64 + (N_of_byte b3 - 0x80)) in *.
  replace (N_of_byte b0 <? 0x80) with false by (symmetry; apply N.ltb_ge; lia).
  replace (0xC2 <=? N_of_byte b0) with true by (symmetry; apply N.leb_le; lia).
  replace (N_of_byte b0 <=? 0xDF) with false by (symmetry; apply N.leb_gt; lia).
  replace (0xE0 <=? N_of_byte b0) with true by (symmetry; apply N.leb_le; lia).
  replace (N_of_byte b0 <=? 0xEF) with false by (symmetry; apply N.leb_gt; lia).
  replace (0xF0 <=? N_of_byte b0) with true by (symmetry; apply N.leb_le; lia).
  replace (N_of_byte b0 <=? 0xF4) with true by (symmetry; apply N.leb_le; lia).
  replace (0x80 <=? N_of_byte b1) with true by (symmetry; apply N.leb_le; lia).
  replace (N_of_byte b1 <=? 0xBF) with true by (symmetry; apply N.leb_le; lia).
  replace (0x80 <=? N_of_byte b2) with true by (symmetry; apply N.leb_le; lia).
  replace (N_of_byte b2 <=? 0xBF) with true by (symmetry; apply N.leb_le; lia).
  replace (0x80 <=? N_of_byte b3) with true by (symmetry; apply N.leb_le; lia).
  replace (N_of_byte b3 <=? 0xBF) with true by (symmetry; apply N.leb_le; lia).
  replace (0x10000 <=? v) with true by (symmetry; apply N.leb_le; lia).
  replace (v <? 0x110000) with true by (symmetry; apply N.ltb_lt; lia).
  reflexivity.
Qed.

(** Decoding undoes the encoding of one code point. *)
Lemma decode_encode_cp (c : codepoint) (bs rest : bytes) :
  encode_cp c = Ok bs ->
  decode_utf8 (bs ++ rest) = cons_ok c (decode_utf8 rest).
Proof.
  unfold encode_cp.
  destruct (c <? 0x80) eqn:E1; [|destruct (c <? 0x800) eqn:E2;
    [|destruct (c <? 0x10000) eqn:E3;
      [destruct ((0xD800 <=? c) && (c <=? 0xDFFF)) eqn:E5
      |destruct (c <? 0x110000) eqn:E4]]];
    intros H; try discriminate;
    match type of H with
    | Ok ?x = Ok _ => assert (Hbs : bs = x) by congruence; subst bs; clear H
    end;
    b2p E1; try b2p E2; try b2p E3; try b2p E4; try b2p E5.
  - change ([?a] ++ rest) with (a :: rest).
    rewrite decode_utf8_1; rewrite N_of_byte_of_N by lia; [reflexivity|lia].
  - change ([?a; ?b] ++ rest) with (a :: b :: rest).
    rewrite decode_utf8_2; rewrite ?N_of_byte_of_N by nlia;
      [f_equal; nlia|nlia|nlia].
  - change ([?a; ?b; ?d] ++ rest) with (a :: b :: d :: rest).
    rewrite decode_utf8_3; rewrite ?N_of_byte_of_N by nlia;
      [f_equal; nlia|nlia|nlia|nlia|nlia|nlia].
  - change ([?a; ?b; ?d; ?e] ++ rest) with (a :: b :: d :: e :: rest).
    rewrite decode_utf8_4; rewrite ?N_of_byte_of_N by nlia;
      [f_equal; nlia|nlia|nlia|nlia|nlia|nlia].
Qed.

Lemma utf8_round_trip (t : str) (d : bytes) :
  encode_utf8 t = Ok d -> decode_utf8 d = Ok t.
Proof.
  revert d. induction t as [|c t IH]; intros d H.
  - injection H as <-. reflexivity.
  - cbn [encode_utf8] in H.
    destruct (encode_cp c) as [bs|] eqn:Ec; [|discriminate].
    destruct (encode_utf8 t) as [r|] eqn:Et; [|discriminate].
    injection H as <-.
    rewrite (decode_encode_cp _ r Ec), (IH r eq_refl). reflexivity.
Qed.

Lemma rstrip_terminator (t : str) : rstrip (t ++ term_chars) = rstrip t.
Proof.
  induction t as [|a t IH]; [reflexivity|].
  cbn [app rstrip]. rewrite IH. reflexivity.
Qed.

(** X7. The bytes [write] puts on the wire decode, with the decoding
    [read] applies, to the upper-cased message with its terminator:
    the two directions of the framing agree. *)
Theorem written_bytes_decode_back (m : str) (d : bytes) (s : Session Com) :
  encode_utf8 (upper (m ++ term_chars)) = Ok d ->
  calls (snd (run (write m) s)) = calls s ++ [Wrote d]
  /\ decode_utf8 d = Ok (upper (m ++ term_chars)).
Proof.
  intros H. split.
  - rewrite (run_write _ s H). reflexivity.
  - apply utf8_round_trip. exact H.
Qed.

(** X8. On a device that echoes the query, the statement of the
    exchange is the message that was sent, with its question mark, in
    upper case and right-stripped. *)
Theorem query_echo_statement (m : str) (d : bytes) (n : Z) (l2 : bytes)
        (t2 : str) (s : Session Com) (c' : Com) :
  m <> [] ->
  encode_utf8
    (upper ((if List.last m 0 =? 63 then m else m ++ lit "?") ++ term_chars))
    = Ok d ->
  plays (_com s) [Sent d n; Got crlf d; Got crlf l2] c' ->
  decode_utf8 l2 = Ok t2 ->
  run (query m) s =
    (Ok {| statement :=
             rstrip (upper (if List.last m 0 =? 63 then m else m ++ lit "?"));
           response := rstrip t2 |},
     {| _com := c';
        calls := calls s ++ [Wrote d; ReadUntil crlf; ReadUntil crlf] |}).
Proof.
  intros Hm He Hp H2.
  pose proof (utf8_round_trip _ He) as H1.
  destruct (last_char_nonempty Hm) as [c Hc].
  assert (He' : encode_utf8 (upper (marked c m ++ term_chars)) = Ok d)
    by (rewrite (marked_last _ Hc); exact He).
  destruct (query_plays m s Hc He' Hp H1 H2) as (c3 & Hq & Hp3).
  inversion Hp3; subst. rewrite Hq.
  rewrite upper_app.
  change (upper term_chars) with term_chars.
  rewrite rstrip_terminator. reflexivity.
Qed.

End RoundTrip.

(** ** The remaining methods *)

Section OtherMethods.
Context {rt : PyRuntime} {Com : Type} {ser : Serial Com}.

Lemma str_of_int_text (z : Z) (t : str) :
  str_of_int z = Ok t ->
  t = (if (z <? 0)%Z then [45] else []) ++ decimal (Z.abs_N z)
  /\ forallb (fun c => c <? 97) t = true.
Proof.
  unfold str_of_int. destruct (over_digit_limit _); [discriminate|].
  intros H. injection H as <-.
  pose proof (digits_below_a _ (decimal_digits (Z.abs_N z))) as Hd.
  destruct (z <? 0)%Z; split; try reflexivity.
  - cbn [forallb]. rewrite Hd. reflexivity.
  - exact Hd.
Qed.

Lemma map_str_int (z : Z) (t : str) :
  str_of_int z = Ok t -> map_str [PyInt z] = Ok [t].
Proof. intros H. cbn [map_str py_str]. rewrite H. reflexivity. Qed.

(** The framing of a command with one argument that has no lower-case
    letter, for a command name in ASCII. *)
Lemma command_wire_ascii (name t : str) :
  is_ascii name = true ->
  forallb (fun c => c <? 97) t = true ->
  encode_utf8 (upper ((name ++ lit " " ++ join (lit " ") [t]) ++ term_chars))
  = Ok (ascii_bytes (upper name) ++ [x20] ++ ascii_bytes t ++ crlf).
Proof.
  intros Hn Ht. cbn [join]. rewrite encode_utf8_ascii.
  - rewrite !upper_app, (upper_below_a _ Ht).
    unfold ascii_bytes. rewrite !map_app, <- !app_assoc. reflexivity.
  - apply upper_is_ascii.
    rewrite !is_ascii_app, Hn, (below_a_is_ascii _ Ht). reflexivity.
Qed.

(** X9. [step], [set_grating] and [set_outport] check nothing: each
    puts on the wire its command name, one space and the decimal text
    of the integer, a minus sign first when it is negative. *)
Theorem integer_commands_send_decimal (z : Z) (t : str) :
  str_of_int z = Ok t ->
  t = (if (z <? 0)%Z then [45] else []) ++ decimal (Z.abs_N z)
  /\ transmits (step z) (list_byte_of_string "STEP " ++ ascii_bytes t ++ crlf)
  /\ transmits (set_grating z)
                (list_byte_of_string "GRAT " ++ ascii_bytes t ++ crlf)
  /\ transmits (set_outport z)
                (list_byte_of_string "OUTPORT " ++ ascii_bytes t ++ crlf).
Proof.
  intros H. destruct (str_of_int_text _ H) as [Ht Hb].
  pose proof (map_str_int _ H) as Ha.
  split; [exact Ht|]. repeat split.
  - unfold step. apply transmits_then_ret.
    exact (command_transmits _ _ Ha
             (command_wire_ascii (lit "step") t eq_refl Hb)).
  - unfold set_grating. apply transmits_then_ret.
    exact (command_transmits _ _ Ha
             (command_wire_ascii (lit "grat") t eq_refl Hb)).
  - unfold set_outport. apply transmits_then_ret.
    exact (command_transmits _ _ Ha
             (command_wire_ascii (lit "outport") t eq_refl Hb)).
Qed.

(** X10. A device that stays silent (both reads time out and deliver
    no bytes) does not make the getters fail with a time-out: the
    response is the empty text, so [info] returns [''], the integer
    getters [filter] and [outport] raise the [ValueError] of [int()],
    and [position] raises the [ValueError] of [float()]. *)
Theorem silent_device_getters (s : Session Com) (n : Z) (c' : Com) :
  (plays (_com s) [Sent (list_byte_of_string "INFO?" ++ crlf) n;
                   Got crlf []; Got crlf []] c' ->
   fst (run info s) = Ok [])
  /\ (plays (_com s) [Sent (list_byte_of_string "FILTER?" ++ crlf) n;
                      Got crlf []; Got crlf []] c' ->
      fst (run filter s) = Err invalid_int)
  /\ (plays (_com s) [Sent (list_byte_of_string "OUTPORT?" ++ crlf) n;
                      Got crlf []; Got crlf []] c' ->
      fst (run outport s) = Err invalid_int)
  /\ (plays (_com s) [Sent (list_byte_of_string "WAVE?" ++ crlf) n;
                      Got crlf []; Got crlf []] c' ->
      fst (run position s) = Err invalid_float).
Proof.
  repeat split; intros Hp.
  - destruct (query_plays (lit "info") s (c := 111) eq_refl eq_refl Hp
                eq_refl eq_refl) as (c3 & Hq & _).
    unfold info. rewrite run_bind, Hq. reflexivity.
  - destruct (query_plays (lit "filter") s (c := 114) eq_refl eq_refl Hp
                eq_refl eq_refl) as (c3 & Hq & _).
    unfold filter. rewrite run_bind, Hq. reflexivity.
  - destruct (query_plays (lit "outport") s (c := 116) eq_refl eq_refl Hp
                eq_refl eq_refl) as (c3 & Hq & _).
    unfold outport. rewrite run_bind, Hq. reflexivity.
  - destruct (query_plays (lit "wave") s (c := 101) eq_refl eq_refl Hp
                eq_refl eq_refl) as (c3 & Hq & _).
    unfold position. rewrite run_bind, Hq. reflexivity.
Qed.

(** X11. For any arguments, when the port accepts the write and
    delivers a line that decodes, [command] makes one write of
    [cmd + ' ' + ' '.join(args)] framed and one read, and returns the
    line right-stripped, whatever byte count the port reported and
    whatever the line says; when the read delivers nothing it returns
    the empty text and raises nothing. *)
Theorem command_exchange (cmd : str) (args : list pyval) (ss : list str)
        (d : bytes) (n : Z) (l : bytes) (t : str) (s : Session Com) (c' : Com) :
  map_str args = Ok ss ->
  encode_utf8 (upper ((cmd ++ lit " " ++ join (lit " ") ss) ++ term_chars))
    = Ok d ->
  plays (_com s) [Sent d n; Got crlf l] c' ->
  decode_utf8 l = Ok t ->
  run (command cmd args) s =
    (Ok (rstrip t),
     {| _com := c'; calls := calls s ++ [Wrote d; ReadUntil crlf] |})
  /\ (l = [] -> fst (run (command cmd args) s) = Ok []).
Proof.
  intros Ha He Hp Hd.
  destruct (command_plays _ _ s Ha He Hp Hd) as (c2 & Hc & Hp2).
  inversion Hp2; subst. split; [exact Hc|].
  intros ->. rewrite Hc. injection Hd as <-. reflexivity.
Qed.

Lemma slit_command_name (ts : str) :
  last_char (lit "slit" ++ ts ++ lit "microns") = Ok 115.
Proof.
  apply last_char_ok. exists (lit "slit" ++ ts ++ lit "micron").
  rewrite <- !app_assoc. reflexivity.
Qed.

Lemma slit_query_wire (ts : str) :
  forallb (fun c => c <? 97) ts = true ->
  encode_utf8
    (upper (marked 115 (lit "slit" ++ ts ++ lit "microns") ++ term_chars))
  = Ok (list_byte_of_string "SLIT" ++ ascii_bytes ts
          ++ list_byte_of_string "MICRONS?" ++ crlf).
Proof.
  intros Ht. change (marked 115 ?x) with (x ++ lit "?").
  rewrite encode_utf8_ascii.
  - rewrite !upper_app, (upper_below_a _ Ht).
    unfold ascii_bytes. rewrite !map_app, <- !app_assoc. reflexivity.
  - apply upper_is_ascii.
    rewrite !is_ascii_app, (below_a_is_ascii _ Ht). reflexivity.
Qed.

Lemma slit_command_wire (ts tw : str) :
  forallb (fun c => c <? 97) ts = true ->
  forallb (fun c => c <? 97) tw = true ->
  encode_utf8
    (upper (((lit "slit" ++ ts ++ lit "microns") ++ lit " "
             ++ join (lit " ") [tw]) ++ term_chars))
  = Ok (list_byte_of_string "SLIT" ++ ascii_bytes ts
          ++ list_byte_of_string "MICRONS " ++ ascii_bytes tw ++ crlf).
Proof.
  intros Hs Hw. cbn [join]. rewrite encode_utf8_ascii.
  - rewrite !upper_app, (upper_below_a _ Hs), (upper_below_a _ Hw).
    unfold ascii_bytes. rewrite !map_app, <- !app_assoc. reflexivity.
  - apply upper_is_ascii.
    rewrite !is_ascii_app, (below_a_is_ascii _ Hs), (below_a_is_ascii _ Hw).
    reflexivity.
Qed.

(** X12. [slit_width] returns what [int()] makes of the response to
    the query [SLITnMICRONS?].  Without a width that query is its only
    exchange; with a width the set command goes first and the value
    returned is still the one re-queried, not the width given. *)
Theorem slit_width_requeries (slit : Z) (ts : str) (s : Session Com) :
  str_of_int slit = Ok ts ->
  (forall n l1 l2 t1 t2 c',
     plays (_com s)
           [Sent (list_byte_of_string "SLIT" ++ ascii_bytes ts
                    ++ list_byte_of_string "MICRONS?" ++ crlf) n;
            Got crlf l1; Got crlf l2] c' ->
     decode_utf8 l1 = Ok t1 -> decode_utf8 l2 = Ok t2 ->
     run (slit_width slit None) s =
       (py_int (rstrip t2),
        {| _com := c';
           calls := calls s
             ++ [Wrote (list_byte_of_string "SLIT" ++ ascii_bytes ts
                          ++ list_byte_of_string "MICRONS?" ++ crlf);
                 ReadUntil crlf; ReadUntil crlf] |}))
  /\ (forall w tw n1 n2 ack a l1 l2 t1 t2 c',
        str_of_int w = Ok tw ->
        plays (_com s)
              [Sent (list_byte_of_string "SLIT" ++ ascii_bytes ts
                       ++ list_byte_of_string "MICRONS " ++ ascii_bytes tw
                       ++ crlf) n1;
               Got crlf ack;
               Sent (list_byte_of_string "SLIT" ++ ascii_bytes ts
                       ++ list_byte_of_string "MICRONS?" ++ crlf) n2;
               Got crlf l1; Got crlf l2] c' ->
        decode_utf8 ack = Ok a ->
        decode_utf8 l1 = Ok t1 -> decode_utf8 l2 = Ok t2 ->
        run (slit_width slit (Some w)) s =
          (py_int (rstrip t2),
           {| _com := c';
              calls := calls s
                ++ [Wrote (list_byte_of_string "SLIT" ++ ascii_bytes ts
                             ++ list_byte_of_string "MICRONS "
                             ++ ascii_bytes tw ++ crlf);
                    ReadUntil crlf;
                    Wrote (list_byte_of_string "SLIT" ++ ascii_bytes ts
                             ++ list_byte_of_string "MICRONS?" ++ crlf);
                    ReadUntil crlf; ReadUntil crlf] |})).
Proof.
  intros Hs. destruct (str_of_int_text _ Hs) as [_ Hb]. split.
  - intros n l1 l2 t1 t2 c' Hp H1 H2.
    unfold slit_width. rewrite run_bind, run_lift, Hs.
    rewrite run_bind, run_ret, run_bind.
    destruct (query_plays _ s (slit_command_name ts) (slit_query_wire ts Hb)
                Hp H1 H2) as (c3 & Hq & Hp3).
    inversion Hp3; subst. rewrite Hq. reflexivity.
  - intros w tw n1 n2 ack a l1 l2 t1 t2 c' Hw Hp Ha H1 H2.
    destruct (str_of_int_text _ Hw) as [_ Hbw].
    unfold slit_width. rewrite run_bind, run_lift, Hs.
    rewrite run_bind, run_bind.
    destruct (command_plays _ _ s (map_str_int _ Hw)
                (slit_command_wire ts tw Hb Hbw) Hp Ha) as (c2 & Hc & Hp2).
    rewrite Hc, run_ret, run_bind.
    set (s2 := {| _com := c2; calls := _ |}).
    destruct (query_plays _ s2 (slit_command_name ts) (slit_query_wire ts Hb)
                Hp2 H1 H2) as (c3 & Hq & Hp3).
    inversion Hp3; subst. rewrite Hq. cbn [response]. rewrite run_lift.
    unfold s2. cbn [calls]. rewrite <- app_assoc. reflexivity.
Qed.

(** X13. [grating] reads the first three comma-separated fields of the
    response and ignores any further ones: with two numeric fields and
    a third field it returns the dictionary, however many fields
    follow, and the label is the third field as it stands. *)
Theorem grating_ignores_extra_fields (n : Z) (l1 l2 : bytes) (t1 t2 : str)
        (f0 f1 f2 : str) (more : list str) (a b : Z)
        (s : Session Com) (c' : Com) :
  plays (_com s)
        [Sent (list_byte_of_string "GRAT?" ++ crlf) n;
         Got crlf l1; Got crlf l2] c' ->
  decode_utf8 l1 = Ok t1 ->
  decode_utf8 l2 = Ok t2 ->
  split 44 (rstrip t2) = f0 :: f1 :: f2 :: more ->
  py_int f0 = Ok a -> py_int f1 = Ok b ->
  run grating s =
    (Ok [(lit "number", PyInt a); (lit "lines", PyInt b);
         (lit "label", PyStr f2)],
     {| _com := c';
        calls := calls s ++ [Wrote (list_byte_of_string "GRAT?" ++ crlf);
                             ReadUntil crlf; ReadUntil crlf] |}).
Proof.
  intros Hp H1 H2 Hs Ha Hb. destruct grat_query_wire as [Hc He].
  destruct (query_plays _ s Hc He Hp H1 H2) as (c3 & Hq & Hp3).
  inversion Hp3; subst.
  unfold grating. rewrite run_bind, Hq. cbn [response]. rewrite Hs.
  rewrite run_bind, run_lift. cbn [getitem nth_error].
  rewrite run_bind, run_lift, Ha.
  rewrite run_bind, run_lift. cbn [getitem nth_error].
  rewrite run_bind, run_lift, Hb.
  rewrite run_bind, run_lift. cbn [getitem nth_error].
  reflexivity.
Qed.

(** X14. The validation never calls the port and never returns
    [False]: it returns [True] exactly for one argument in [1, 6] and
    raises otherwise. *)
Theorem validate_filter_true_or_raises (args : list Z) (s : Session Com) :
  snd (run (_validate_filter args) s) = s
  /\ fst (run (_validate_filter args) s) <> Ok false
  /\ (fst (run (_validate_filter args) s) = Ok true
      <-> exists p, args = [p] /\ (1 <= p <= 6)%Z).
Proof.
  unfold _validate_filter.
  destruct args as [|p [|q r]]; cbn [run raise ret fst snd].
  - repeat split; try discriminate. intros (p & H & _). discriminate.
  - destruct ((p <? MIN_VAL)%Z || (p >? MAX_VAL)%Z) eqn:E;
      cbn [run raise ret fst snd]; repeat split; try discriminate.
    + intros (p' & H & Hr). injection H as <-.
      apply filter_in_range in Hr. rewrite Hr in E. discriminate.
    + intros _. exists p. split; [reflexivity|].
      apply filter_in_range. exact E.
  - repeat split; try discriminate. intros (p' & H & _). discriminate.
Qed.

(** X16. [shutter] sends the letter [C] to close and [O] to open. *)
Theorem shutter_sends_letter (close : bool) :
  transmits (shutter close)
            (list_byte_of_string "SHUTTER "
               ++ [if close then x43 else x4f] ++ crlf).
Proof.
  unfold shutter. apply transmits_then_ret.
  destruct close.
  - exact (@command_transmits _ _ _ (lit "shutter") [PyStr (lit "C")]
             [lit "C"] _ eq_refl eq_refl).
  - exact (@command_transmits _ _ _ (lit "shutter") [PyStr (lit "O")]
             [lit "O"] _ eq_refl eq_refl).
Qed.

Lemma query_appends (m : str) (s : Session Com) :
  exists rest, calls (snd (run (query m) s)) = calls s ++ rest.
Proof.
  destruct (query_calls_cases m s) as [H|[[d H]|[[d H]|[d H]]]];
    eexists; [rewrite H, app_nil_r; reflexivity|exact H|exact H|exact H].
Qed.

(** X15. [goto] checks nothing either: for every float the first call
    on the port is the write of the [gowave] command, and a wavelength
    that is not finite goes out as [NAN], [INF] or [-INF]. *)
Theorem goto_no_validation (w : pyfloat) :
  transmits (goto w)
            (list_byte_of_string "GOWAVE "
               ++ ascii_bytes (upper (format_3f w)) ++ crlf)
  /\ (is_finite w = false ->
      upper (format_3f w) = lit "NAN"
      \/ upper (format_3f w) = lit "INF"
      \/ upper (format_3f w) = lit "-INF").
Proof.
  split.
  - intros s. unfold goto. rewrite run_bind.
    destruct (command_transmits (lit "gowave") [PyStr (format_3f w)]
                (ss := [format_3f w]) eq_refl (gowave_wire w) s)
      as (r & s1 & rest & Hr & Hc).
    rewrite Hr. destruct r as [ack|e].
    + unfold position. rewrite run_bind.
      destruct (query_appends (lit "wave") s1) as [rest2 H2].
      destruct (run (query (lit "wave")) s1) as [[resp|e] s2];
        cbn [snd] in H2.
      * rewrite run_lift. eexists _, _, (rest ++ rest2).
        split; [reflexivity|].
        rewrite H2, Hc, <- app_assoc. reflexivity.
      * eexists _, _, (rest ++ rest2). split; [reflexivity|].
        rewrite H2, Hc, <- app_assoc. reflexivity.
    + eexists _, _, rest. split; [reflexivity|exact Hc].
  - destruct w as [sg|sg| |sg m e]; try discriminate; intros _.
    + destruct sg; [right; right|right; left]; reflexivity.
    + left. reflexivity.
Qed.

(** X17. [read] gives back the text the device sent, as it was sent:
    for bytes that are the UTF-8 encoding of a text it returns that
    text whole, terminator and trailing spaces included, after one
    read up to the terminator. *)
Theorem read_returns_text (t : str) (l : bytes) (s : Session Com) (c' : Com) :
  encode_utf8 t = Ok l ->
  plays (_com s) [Got crlf l] c' ->
  run read s =
    (Ok t, {| _com := c'; calls := calls s ++ [ReadUntil crlf] |}).
Proof.
  intros He Hp.
  destruct (read_plays s Hp (utf8_round_trip _ He)) as (c1 & Hr & Hp1).
  inversion Hp1; subst. exact Hr.
Qed.

(** X18. [abort] does not look at the acknowledgement: whatever line
    the device answers with, it returns [None] after one write of
    ["ABORT "] framed and one read. *)
Theorem abort_ignores_answer (n : Z) (l : bytes) (t : str)
        (s : Session Com) (c' : Com) :
  plays (_com s) [Sent (list_byte_of_string "ABORT " ++ crlf) n; Got crlf l] c' ->
  decode_utf8 l = Ok t ->
  run abort s =
    (Ok tt,
     {| _com := c';
        calls := calls s ++ [Wrote (list_byte_of_string "ABORT " ++ crlf);
                             ReadUntil crlf] |}).
Proof.
  intros Hp Hd.
  destruct (command_plays (lit "abort") [] s (ss := []) eq_refl eq_refl Hp Hd)
    as (c2 & Hc & Hp2).
  inversion Hp2; subst. unfold abort. rewrite run_bind, Hc. reflexivity.
Qed.

End OtherMethods.

(** * The methods on the scripted device *)

Section OnTheScriptedDevice.
#[local] Existing Instance ascii_runtime.
#[local] Existing Instance mock_serial.

(** The built-ins on the values the claims mention. *)

Example format_500 : format_3f f500 = lit "500.000".
Proof. reflexivity. Qed.

Example float_499_998 : py_float (lit "499.998") = Ok f499_998.
Proof. reflexivity. Qed.

Example format_ties_to_even :
  format_3f (S754_finite false 1 (-4)) = lit "0.062"
  /\ format_3f (S754_finite false 3 (-4)) = lit "0.188".
Proof. split; reflexivity. Qed.

Example format_not_finite :
  format_3f S754_nan = lit "nan"
  /\ format_3f (S754_infinity true) = lit "-inf".
Proof. split; reflexivity. Qed.

Example int_1200 : py_int (lit "1200") = Ok 1200%Z.
Proof. reflexivity. Qed.

Example int_surrounded : py_int (lit " -1_000 ") = Ok (-1000)%Z.
Proof. reflexivity. Qed.

Example int_no_number : py_int (lit "VIS") = Err invalid_int.
Proof. reflexivity. Qed.

Example split_three : split 44 (lit "1,1200,VIS") = [lit "1"; lit "1200"; lit "VIS"].
Proof. reflexivity. Qed.

Example split_empty : split 44 [] = [[]].
Proof. reflexivity. Qed.

Example rstrip_line : rstrip (lit " C  " ++ term_chars) = lit " C".
Proof. reflexivity. Qed.

Example join_none : join (lit " ") [] = [].
Proof. reflexivity. Qed.

Example utf8_euro :
  encode_utf8 [0x20AC] = Ok [xe2; x82; xac]
  /\ decode_utf8 [xe2; x82; xac] = Ok [0x20AC].
Proof. split; reflexivity. Qed.

Example utf8_surrogate :
  encode_utf8 [0xD800] = Err UnicodeEncodeError
  /\ decode_utf8 [xed; xa0; x80] = Err UnicodeDecodeError.
Proof. split; reflexivity. Qed.

Example read_until_terminator :
  take_until crlf (list_byte_of_string "ab" ++ crlf ++ list_byte_of_string "cd")
  = (list_byte_of_string "ab" ++ crlf, list_byte_of_string "cd").
Proof. reflexivity. Qed.

Lemma write_sends_upper_utf8_witness :
  run (write (lit "wave?")) (mock_session []) =
    (Ok 7%Z,
     {| _com := {| outbox := [list_byte_of_string "WAVE?" ++ crlf];
                   inbox := [] |};
        calls := [Wrote (list_byte_of_string "WAVE?" ++ crlf)] |}).
Proof.
  exact (@write_sends_upper_utf8 ascii_runtime MockPort mock_serial
           (lit "wave?") (list_byte_of_string "WAVE?" ++ crlf)
           (mock_session []) eq_refl).
Defined.

Lemma command_without_args_trailing_space_witness :
  exists r s' rest,
    run (command (lit "abort") []) (mock_session ["OK"]) = (r, s')
    /\ calls s' = [] ++ Wrote (list_byte_of_string "ABORT " ++ crlf) :: rest.
Proof.
  exact (proj1 (@command_without_args_trailing_space
                  ascii_runtime MockPort mock_serial (lit "abort")
                  (list_byte_of_string "ABORT " ++ crlf) eq_refl)
               (mock_session ["OK"])).
Defined.

Lemma query_exchange_witness :
  run (query (lit "wave")) (mock_session ["WAVE?"; "500.000  "]) =
    (Ok {| statement := lit "WAVE?"; response := lit "500.000" |},
     {| _com := {| outbox := [list_byte_of_string "WAVE?" ++ crlf];
                   inbox := [] |};
        calls := [Wrote (list_byte_of_string "WAVE?" ++ crlf);
                  ReadUntil crlf; ReadUntil crlf] |}).
Proof.
  apply (proj2 (proj1 (@query_exchange ascii_runtime MockPort mock_serial
                         (lit "wave") (mock_session ["WAVE?"; "500.000  "]))
                      _ _)).
  split; [discriminate|].
  exists (list_byte_of_string "WAVE?" ++ crlf), 7%Z,
         (list_byte_of_string "WAVE?" ++ crlf),
         (list_byte_of_string "500.000  " ++ crlf),
         (lit "WAVE?" ++ term_chars), (lit "500.000  " ++ term_chars).
  split; [reflexivity|]. split; [repeat econstructor|].
  split; [reflexivity|]. split; [reflexivity|].
  split; reflexivity.
Defined.

(** C6 as stated fails on the empty message: the test of the last
    character raises [IndexError] and nothing is sent or read. *)
Lemma query_empty_message_raises :
  run (query []) (mock_session ["?"; "0"]) =
    (Err IndexError, mock_session ["?"; "0"]).
Proof. reflexivity. Qed.

Lemma query_question_mark_witness :
  exists m' : str,
    (forall data, encode_utf8 (upper (m' ++ term_chars)) = Ok data ->
                  transmits (query (lit "wave?")) data)
    /\ (exists p, m' = p ++ [63])
    /\ ((exists p, lit "wave?" = p ++ [63]) -> m' = lit "wave?")
    /\ (~ (exists p, lit "wave?" = p ++ [63]) -> m' = lit "wave?" ++ [63])
    /\ ((exists p, m' = p ++ [63; 63]) -> exists p, lit "wave?" = p ++ [63; 63]).
Proof.
  apply (@query_question_mark ascii_runtime MockPort mock_serial (lit "wave?")).
  discriminate.
Defined.

(** C7 as stated fails on a message that already ends in two question
    marks: it goes out unchanged, so the wire message ends in ["??"]. *)
Lemma query_keeps_double_mark :
  calls (snd (run (query (lit "wave??")) (mock_session ["WAVE??"; "500.000"])))
  = [Wrote (list_byte_of_string "WAVE??" ++ crlf);
     ReadUntil crlf; ReadUntil crlf].
Proof. reflexivity. Qed.

Lemma set_filter_range_witness :
  run (set_filter 3) (mock_session ["OK"]) =
    (Ok tt,
     {| _com := {| outbox := [list_byte_of_string "FILTER 3" ++ crlf];
                   inbox := [] |};
        calls := [Wrote (list_byte_of_string "FILTER 3" ++ crlf);
                  ReadUntil crlf] |})
  /\ run (set_filter 7) (mock_session ["OK"]) =
       (Err (ValueError "Invalid filter value. Must be between 1 and 6."),
        mock_session ["OK"]).
Proof.
  split.
  - apply (proj2 (proj1 (@set_filter_range ascii_runtime MockPort mock_serial
                           3%Z (mock_session ["OK"]))
                        ltac:(lia))
             10%Z (list_byte_of_string "OK" ++ crlf) (lit "OK" ++ term_chars)).
    + repeat econstructor.
    + reflexivity.
  - apply (proj2 (@set_filter_range ascii_runtime MockPort mock_serial
                    7%Z (mock_session ["OK"]))).
    lia.
Defined.

Lemma filter_label_long_label_TypeError_witness :
  run (filter_label 1 (Some (lit "ULTRAVIOLET")))
      (mock_session ["OK"; "FILTER1LABEL?"; "UV"])
  = (Err TypeError, mock_session ["OK"; "FILTER1LABEL?"; "UV"])
  /\ forall msg,
      fst (run (filter_label 1 (Some (lit "ULTRAVIOLET")))
               (mock_session ["OK"; "FILTER1LABEL?"; "UV"]))
      <> Err (ValueError msg).
Proof.
  apply (@filter_label_long_label_TypeError ascii_runtime MockPort mock_serial).
  simpl. lia.
Defined.

Lemma shuttered_true_iff_C_witness :
  run shuttered (mock_session ["SHUTTER?"; "C"]) =
    (Ok true,
     {| _com := {| outbox := [list_byte_of_string "SHUTTER?" ++ crlf];
                   inbox := [] |};
        calls := [Wrote (list_byte_of_string "SHUTTER?" ++ crlf);
                  ReadUntil crlf; ReadUntil crlf] |})
  /\ run shuttered (mock_session ["SHUTTER?"; "O"]) =
       (Ok false,
        {| _com := {| outbox := [list_byte_of_string "SHUTTER?" ++ crlf];
                      inbox := [] |};
           calls := [Wrote (list_byte_of_string "SHUTTER?" ++ crlf);
                     ReadUntil crlf; ReadUntil crlf] |})
  /\ run shuttered (mock_session ["SHUTTER?"; ""]) =
       (Ok false,
        {| _com := {| outbox := [list_byte_of_string "SHUTTER?" ++ crlf];
                      inbox := [] |};
           calls := [Wrote (list_byte_of_string "SHUTTER?" ++ crlf);
                     ReadUntil crlf; ReadUntil crlf] |}).
Proof.
  split; [|split].
  - destruct (proj1 (@shuttered_true_iff_C ascii_runtime MockPort mock_serial
                       (mock_session ["SHUTTER?"; "C"]))
                    10%Z (list_byte_of_string "SHUTTER?" ++ crlf)
                    (list_byte_of_string "C" ++ crlf)
                    (lit "SHUTTER?" ++ term_chars) (lit "C" ++ term_chars)
                    {| outbox := [list_byte_of_string "SHUTTER?" ++ crlf];
                       inbox := [] |}
                    ltac:(repeat econstructor) eq_refl eq_refl)
      as (b & Hrun & Hiff & _).
    rewrite Hrun, (proj2 Hiff (ex_intro _ term_chars (conj eq_refl eq_refl))).
    reflexivity.
  - destruct (proj1 (@shuttered_true_iff_C ascii_runtime MockPort mock_serial
                       (mock_session ["SHUTTER?"; "O"]))
                    10%Z (list_byte_of_string "SHUTTER?" ++ crlf)
                    (list_byte_of_string "O" ++ crlf)
                    (lit "SHUTTER?" ++ term_chars) (lit "O" ++ term_chars)
                    {| outbox := [list_byte_of_string "SHUTTER?" ++ crlf];
                       inbox := [] |}
                    ltac:(repeat econstructor) eq_refl eq_refl)
      as (b & Hrun & Hiff & _).
    destruct b; [|exact Hrun].
    destruct (proj1 Hiff eq_refl) as (ws & Hws & _). discriminate Hws.
  - destruct (proj1 (@shuttered_true_iff_C ascii_runtime MockPort mock_serial
                       (mock_session ["SHUTTER?"; ""]))
                    10%Z (list_byte_of_string "SHUTTER?" ++ crlf)
                    crlf
                    (lit "SHUTTER?" ++ term_chars) term_chars
                    {| outbox := [list_byte_of_string "SHUTTER?" ++ crlf];
                       inbox := [] |}
                    ltac:(repeat econstructor) eq_refl eq_refl)
      as (b & Hrun & _ & Hsp).
    rewrite Hrun, (Hsp eq_refl). reflexivity.
Defined.

(** C9 as stated fails on a response that ends in a space: the line
    without its terminator is ["C "], which is not the one character
    ["C"], and the method returns [True]. *)
Lemma shuttered_true_on_padded_response :
  run shuttered (mock_session ["SHUTTER?"; "C "]) =
    (Ok true,
     {| _com := {| outbox := [list_byte_of_string "SHUTTER?" ++ crlf];
                   inbox := [] |};
        calls := [Wrote (list_byte_of_string "SHUTTER?" ++ crlf);
                  ReadUntil crlf; ReadUntil crlf] |})
  /\ decode_utf8 (list_byte_of_string "C " ++ crlf)
     = Ok (lit "C " ++ term_chars)
  /\ lit "C " <> lit "C".
Proof. split; [reflexivity|split; [reflexivity|discriminate]]. Qed.

Lemma grating_parse_witness :
  run grating (mock_session ["GRAT?"; "1,1200,VIS"]) =
    (Ok [(lit "number", PyInt 1); (lit "lines", PyInt 1200);
         (lit "label", PyStr (lit "VIS"))],
     {| _com := {| outbox := [list_byte_of_string "GRAT?" ++ crlf];
                   inbox := [] |};
        calls := [Wrote (list_byte_of_string "GRAT?" ++ crlf);
                  ReadUntil crlf; ReadUntil crlf] |})
  /\ run grating (mock_session ["GRAT?"; "1,1200"]) =
       (Err IndexError,
        {| _com := {| outbox := [list_byte_of_string "GRAT?" ++ crlf];
                      inbox := [] |};
           calls := [Wrote (list_byte_of_string "GRAT?" ++ crlf);
                     ReadUntil crlf; ReadUntil crlf] |})
  /\ run grating (mock_session ["GRAT?"; "x,1200"]) =
       (Err (ValueError "invalid literal for int() with base 10"),
        {| _com := {| outbox := [list_byte_of_string "GRAT?" ++ crlf];
                      inbox := [] |};
           calls := [Wrote (list_byte_of_string "GRAT?" ++ crlf);
                     ReadUntil crlf; ReadUntil crlf] |})
  /\ run grating (mock_session ["GRAT?"; "1,VIS"]) =
       (Err (ValueError "invalid literal for int() with base 10"),
        {| _com := {| outbox := [list_byte_of_string "GRAT?" ++ crlf];
                      inbox := [] |};
           calls := [Wrote (list_byte_of_string "GRAT?" ++ crlf);
                     ReadUntil crlf; ReadUntil crlf] |}).
Proof.
  split; [|split; [|split]].
  - apply (proj1 (@grating_parse ascii_runtime MockPort mock_serial 7%Z
                    (list_byte_of_string "GRAT?" ++ crlf)
                    (list_byte_of_string "1,1200,VIS" ++ crlf)
                    (lit "GRAT?" ++ term_chars) (lit "1,1200,VIS" ++ term_chars)
                    (mock_session ["GRAT?"; "1,1200,VIS"])
                    {| outbox := [list_byte_of_string "GRAT?" ++ crlf];
                       inbox := [] |}
                    ltac:(repeat econstructor) eq_refl eq_refl)).
    reflexivity.
  - apply (proj1 (proj2 (@grating_parse ascii_runtime MockPort mock_serial 7%Z
                    (list_byte_of_string "GRAT?" ++ crlf)
                    (list_byte_of_string "1,1200" ++ crlf)
                    (lit "GRAT?" ++ term_chars) (lit "1,1200" ++ term_chars)
                    (mock_session ["GRAT?"; "1,1200"])
                    {| outbox := [list_byte_of_string "GRAT?" ++ crlf];
                       inbox := [] |}
                    ltac:(repeat econstructor) eq_refl eq_refl)
                  (lit "1") (lit "1200") eq_refl) 1%Z 1200%Z);
      reflexivity.
  - apply (proj1 (proj2 (proj2 (@grating_parse ascii_runtime MockPort
                    mock_serial 7%Z
                    (list_byte_of_string "GRAT?" ++ crlf)
                    (list_byte_of_string "x,1200" ++ crlf)
                    (lit "GRAT?" ++ term_chars) (lit "x,1200" ++ term_chars)
                    (mock_session ["GRAT?"; "x,1200"])
                    {| outbox := [list_byte_of_string "GRAT?" ++ crlf];
                       inbox := [] |}
                    ltac:(repeat econstructor) eq_refl eq_refl)
                  (lit "x") (lit "1200") eq_refl)) invalid_int).
    reflexivity.
  - apply (proj2 (proj2 (proj2 (@grating_parse ascii_runtime MockPort
                    mock_serial 7%Z
                    (list_byte_of_string "GRAT?" ++ crlf)
                    (list_byte_of_string "1,VIS" ++ crlf)
                    (lit "GRAT?" ++ term_chars) (lit "1,VIS" ++ term_chars)
                    (mock_session ["GRAT?"; "1,VIS"])
                    {| outbox := [list_byte_of_string "GRAT?" ++ crlf];
                       inbox := [] |}
                    ltac:(repeat econstructor) eq_refl eq_refl)
                  (lit "1") (lit "VIS") eq_refl)) 1%Z invalid_int);
      reflexivity.
Defined.

(** C4 as stated fails: the code has no class of its own for an
    unexpected reply.  A reply of two numeric fields raises
    [IndexError], which an empty query message raises too with nothing
    sent; a reply of two fields the first of which is no number raises
    [ValueError], the class of the filter validation. *)
Lemma grating_two_fields_builtin_errors :
  fst (run grating (mock_session ["GRAT?"; "1,1200"])) = Err IndexError
  /\ fst (run (query []) (mock_session [])) = Err IndexError
  /\ fst (run grating (mock_session ["GRAT?"; "x,1200"]))
     = Err (ValueError "invalid literal for int() with base 10")
  /\ fst (run (set_filter 0) (mock_session []))
     = Err (ValueError "Invalid filter value. Must be between 1 and 6.").
Proof. repeat split. Qed.

Lemma goto_sends_3f_and_requeries_witness :
  run (goto f500) (mock_session ["OK"; "WAVE?"; "499.998"]) =
    (Ok f499_998,
     {| _com := {| outbox := [list_byte_of_string "GOWAVE 500.000" ++ crlf;
                              list_byte_of_string "WAVE?" ++ crlf];
                   inbox := [] |};
        calls := [Wrote (list_byte_of_string "GOWAVE 500.000" ++ crlf);
                  ReadUntil crlf;
                  Wrote (list_byte_of_string "WAVE?" ++ crlf);
                  ReadUntil crlf; ReadUntil crlf] |})
  /\ three_decimals (lit "500.000")
  /\ upper (lit "500.000") = lit "500.000".
Proof.
  destruct (@goto_sends_3f_and_requeries ascii_runtime MockPort mock_serial
              f500 16%Z 7%Z
              (list_byte_of_string "OK" ++ crlf)
              (list_byte_of_string "WAVE?" ++ crlf)
              (list_byte_of_string "499.998" ++ crlf)
              (lit "OK" ++ term_chars) (lit "WAVE?" ++ term_chars)
              (lit "499.998" ++ term_chars)
              (mock_session ["OK"; "WAVE?"; "499.998"])
              {| outbox := [list_byte_of_string "GOWAVE 500.000" ++ crlf;
                            list_byte_of_string "WAVE?" ++ crlf];
                 inbox := [] |}
              ltac:(repeat econstructor) eq_refl eq_refl eq_refl)
    as [Hrun Hfin].
  split; [exact Hrun|exact (Hfin eq_refl)].
Defined.

(** *** The further properties, run *)

Lemma exchange_results_stripped_witness :
  (no_trailing_space (lit "WAVE?") /\ no_trailing_space (lit "500.000"))
  /\ no_trailing_space (lit "OK").
Proof.
  split.
  - apply (proj1 (@exchange_results_stripped ascii_runtime MockPort mock_serial
                    (mock_session ["WAVE?"; "500.000  "]))
             (lit "wave")
             {| statement := lit "WAVE?"; response := lit "500.000" |}
             (snd (run (query (lit "wave"))
                       (mock_session ["WAVE?"; "500.000  "])))).
    reflexivity.
  - apply (proj2 (@exchange_results_stripped ascii_runtime MockPort mock_serial
                    (mock_session ["OK  "]))
             (lit "abort") [] (lit "OK")
             (snd (run (command (lit "abort") []) (mock_session ["OK  "])))).
    reflexivity.
Defined.

Lemma query_explicit_mark_witness :
  run (query (lit "wave?")) (mock_session ["WAVE?"; "500.000"])
  = run (query (lit "wave")) (mock_session ["WAVE?"; "500.000"]).
Proof.
  apply (@query_explicit_mark ascii_runtime MockPort mock_serial (lit "wave"));
    discriminate.
Defined.

Lemma write_failure_ends_exchange_witness :
  @run unit _ (@query ascii_runtime unit closed_port (lit "wave"))
       {| _com := tt; calls := [] |}
  = (Err (SerialException "Attempting to use a port that is not open"),
     {| _com := tt; calls := [Wrote (list_byte_of_string "WAVE?" ++ crlf)] |})
  /\ @run unit _ (@command ascii_runtime unit closed_port (lit "abort") [])
          {| _com := tt; calls := [] |}
     = (Err (SerialException "Attempting to use a port that is not open"),
        {| _com := tt;
           calls := [Wrote (list_byte_of_string "ABORT " ++ crlf)] |}).
Proof.
  split.
  - apply (proj1 (@write_failure_ends_exchange ascii_runtime unit closed_port
                    {| _com := tt; calls := [] |}
                    (list_byte_of_string "WAVE?" ++ crlf)
                    (SerialException "Attempting to use a port that is not open")
                    tt eq_refl)
             (lit "wave")).
    + discriminate.
    + reflexivity.
  - apply (proj2 (@write_failure_ends_exchange ascii_runtime unit closed_port
                    {| _com := tt; calls := [] |}
                    (list_byte_of_string "ABORT " ++ crlf)
                    (SerialException "Attempting to use a port that is not open")
                    tt eq_refl)
             (lit "abort") [] []).
    + reflexivity.
    + reflexivity.
Defined.

Lemma query_undecodable_echo_witness :
  run (query (lit "wave"))
      {| _com := {| outbox := [];
                    inbox := [xff; x0d; x0a; x31; x0d; x0a] |};
         calls := [] |}
  = (Err UnicodeDecodeError,
     {| _com := {| outbox := [list_byte_of_string "WAVE?" ++ crlf];
                   inbox := [x31; x0d; x0a] |};
        calls := [Wrote (list_byte_of_string "WAVE?" ++ crlf);
                  ReadUntil crlf] |})
  /\ UnicodeDecodeError = UnicodeDecodeError.
Proof.
  apply (@query_undecodable_echo ascii_runtime MockPort mock_serial
           (lit "wave") (list_byte_of_string "WAVE?" ++ crlf) 7%Z
           [xff; x0d; x0a] UnicodeDecodeError).
  - discriminate.
  - reflexivity.
  - repeat econstructor.
  - reflexivity.
Defined.

Lemma written_bytes_decode_back_witness :
  calls (snd (run (write (lit "wave?")) (mock_session [])))
  = [] ++ [Wrote (list_byte_of_string "WAVE?" ++ crlf)]
  /\ decode_utf8 (list_byte_of_string "WAVE?" ++ crlf)
     = Ok (upper (lit "wave?" ++ term_chars)).
Proof.
  apply (@written_bytes_decode_back ascii_runtime MockPort mock_serial
           (lit "wave?") (list_byte_of_string "WAVE?" ++ crlf)
           (mock_session [])).
  reflexivity.
Defined.

Lemma query_echo_statement_witness :
  run (query (lit "wave")) (mock_session ["WAVE?"; "500.000"]) =
    (Ok {| statement := lit "WAVE?"; response := lit "500.000" |},
     {| _com := {| outbox := [list_byte_of_string "WAVE?" ++ crlf];
                   inbox := [] |};
        calls := [Wrote (list_byte_of_string "WAVE?" ++ crlf);
                  ReadUntil crlf; ReadUntil crlf] |}).
Proof.
  apply (@query_echo_statement ascii_runtime MockPort mock_serial
           (lit "wave") (list_byte_of_string "WAVE?" ++ crlf) 7%Z
           (list_byte_of_string "500.000" ++ crlf)
           (lit "500.000" ++ term_chars)
           (mock_session ["WAVE?"; "500.000"])).
  - discriminate.
  - reflexivity.
  - repeat econstructor.
  - reflexivity.
Defined.

Lemma integer_commands_send_decimal_witness :
  lit "-5" = [45] ++ decimal 5
  /\ transmits (step (-5))
                (list_byte_of_string "STEP " ++ ascii_bytes (lit "-5") ++ crlf)
  /\ transmits (set_grating (-5))
                (list_byte_of_string "GRAT " ++ ascii_bytes (lit "-5") ++ crlf)
  /\ transmits (set_outport (-5))
                (list_byte_of_string "OUTPORT " ++ ascii_bytes (lit "-5")
                   ++ crlf).
Proof.
  apply (@integer_commands_send_decimal ascii_runtime MockPort mock_serial
           (-5)%Z (lit "-5")).
  reflexivity.
Defined.

Lemma silent_device_getters_witness :
  fst (run info (mock_session [])) = Ok []
  /\ fst (run filter (mock_session [])) = Err invalid_int
  /\ fst (run outport (mock_session [])) = Err invalid_int
  /\ fst (run position (mock_session [])) = Err invalid_float.
Proof.
  split; [|split; [|split]].
  - apply (proj1 (@silent_device_getters ascii_runtime MockPort mock_serial
                    (mock_session []) 7%Z
                    {| outbox := [list_byte_of_string "INFO?" ++ crlf];
                       inbox := [] |})).
    repeat econstructor.
  - apply (proj1 (proj2 (@silent_device_getters ascii_runtime MockPort
                           mock_serial (mock_session []) 9%Z
                           {| outbox := [list_byte_of_string "FILTER?" ++ crlf];
                              inbox := [] |}))).
    repeat econstructor.
  - apply (proj1 (proj2 (proj2 (@silent_device_getters ascii_runtime MockPort
                           mock_serial (mock_session []) 10%Z
                           {| outbox := [list_byte_of_string "OUTPORT?" ++ crlf];
                              inbox := [] |})))).
    repeat econstructor.
  - apply (proj2 (proj2 (proj2 (@silent_device_getters ascii_runtime MockPort
                           mock_serial (mock_session []) 7%Z
                           {| outbox := [list_byte_of_string "WAVE?" ++ crlf];
                              inbox := [] |})))).
    repeat econstructor.
Defined.

Lemma command_exchange_witness :
  run (command (lit "step") [PyInt 10]) (mock_session ["OK "]) =
    (Ok (lit "OK"),
     {| _com := {| outbox := [list_byte_of_string "STEP 10" ++ crlf];
                   inbox := [] |};
        calls := [Wrote (list_byte_of_string "STEP 10" ++ crlf);
                  ReadUntil crlf] |})
  /\ fst (run (command (lit "step") [PyInt 10]) (mock_session [])) = Ok [].
Proof.
  split.
  - apply (proj1 (@command_exchange ascii_runtime MockPort mock_serial
                    (lit "step") [PyInt 10] [lit "10"]
                    (list_byte_of_string "STEP 10" ++ crlf) 9%Z
                    (list_byte_of_string "OK " ++ crlf)
                    (lit "OK " ++ term_chars)
                    (mock_session ["OK "])
                    {| outbox := [list_byte_of_string "STEP 10" ++ crlf];
                       inbox := [] |}
                    eq_refl eq_refl ltac:(repeat econstructor) eq_refl)).
  - apply (proj2 (@command_exchange ascii_runtime MockPort mock_serial
                    (lit "step") [PyInt 10] [lit "10"]
                    (list_byte_of_string "STEP 10" ++ crlf) 9%Z
                    [] []
                    (mock_session [])
                    {| outbox := [list_byte_of_string "STEP 10" ++ crlf];
                       inbox := [] |}
                    eq_refl eq_refl ltac:(repeat econstructor) eq_refl)).
    reflexivity.
Defined.

Lemma slit_width_requeries_witness :
  fst (run (slit_width 1 None) (mock_session ["SLIT1MICRONS?"; "250"]))
  = Ok 250%Z
  /\ run (slit_width 1 (Some 300%Z))
         (mock_session ["OK"; "SLIT1MICRONS?"; "250"])
     = (Ok 250%Z,
        {| _com := {| outbox := [list_byte_of_string "SLIT1MICRONS 300" ++ crlf;
                                 list_byte_of_string "SLIT1MICRONS?" ++ crlf];
                      inbox := [] |};
           calls := [Wrote (list_byte_of_string "SLIT1MICRONS 300" ++ crlf);
                     ReadUntil crlf;
                     Wrote (list_byte_of_string "SLIT1MICRONS?" ++ crlf);
                     ReadUntil crlf; ReadUntil crlf] |}).
Proof.
  split.
  - rewrite (proj1 (@slit_width_requeries ascii_runtime MockPort mock_serial
                      1%Z (lit "1") (mock_session ["SLIT1MICRONS?"; "250"])
                      eq_refl)
               15%Z (list_byte_of_string "SLIT1MICRONS?" ++ crlf)
               (list_byte_of_string "250" ++ crlf)
               (lit "SLIT1MICRONS?" ++ term_chars) (lit "250" ++ term_chars)
               {| outbox := [list_byte_of_string "SLIT1MICRONS?" ++ crlf];
                  inbox := [] |}
               ltac:(repeat econstructor) eq_refl eq_refl).
    reflexivity.
  - apply (proj2 (@slit_width_requeries ascii_runtime MockPort mock_serial
                    1%Z (lit "1")
                    (mock_session ["OK"; "SLIT1MICRONS?"; "250"]) eq_refl)
             300%Z (lit "300") 18%Z 15%Z
             (list_byte_of_string "OK" ++ crlf) (lit "OK" ++ term_chars)
             (list_byte_of_string "SLIT1MICRONS?" ++ crlf)
             (list_byte_of_string "250" ++ crlf)
             (lit "SLIT1MICRONS?" ++ term_chars) (lit "250" ++ term_chars)).
    + reflexivity.
    + repeat econstructor.
    + reflexivity.
    + reflexivity.
    + reflexivity.
Defined.

Lemma grating_ignores_extra_fields_witness :
  run grating (mock_session ["GRAT?"; "1,1200,VIS,EXTRA"]) =
    (Ok [(lit "number", PyInt 1); (lit "lines", PyInt 1200);
         (lit "label", PyStr (lit "VIS"))],
     {| _com := {| outbox := [list_byte_of_string "GRAT?" ++ crlf];
                   inbox := [] |};
        calls := [Wrote (list_byte_of_string "GRAT?" ++ crlf);
                  ReadUntil crlf; ReadUntil crlf] |}).
Proof.
  apply (@grating_ignores_extra_fields ascii_runtime MockPort mock_serial
           7%Z (list_byte_of_string "GRAT?" ++ crlf)
           (list_byte_of_string "1,1200,VIS,EXTRA" ++ crlf)
           (lit "GRAT?" ++ term_chars) (lit "1,1200,VIS,EXTRA" ++ term_chars)
           (lit "1") (lit "1200") (lit "VIS") [lit "EXTRA"] 1%Z 1200%Z
           (mock_session ["GRAT?"; "1,1200,VIS,EXTRA"])).
  - repeat econstructor.
  - reflexivity.
  - reflexivity.
  - reflexivity.
  - reflexivity.
  - reflexivity.
Defined.

Lemma goto_no_validation_witness :
  upper (format_3f S754_nan) = lit "NAN"
  \/ upper (format_3f S754_nan) = lit "INF"
  \/ upper (format_3f S754_nan) = lit "-INF".
Proof.
  apply (proj2 (@goto_no_validation ascii_runtime MockPort mock_serial
                  S754_nan)).
  reflexivity.
Defined.

Lemma read_returns_text_witness :
  run read (mock_session ["500.000  "]) =
    (Ok (lit "500.000  " ++ term_chars),
     {| _com := {| outbox := []; inbox := [] |};
        calls := [ReadUntil crlf] |}).
Proof.
  apply (@read_returns_text MockPort mock_serial
           (lit "500.000  " ++ term_chars)
           (list_byte_of_string "500.000  " ++ crlf)
           (mock_session ["500.000  "])).
  - reflexivity.
  - repeat econstructor.
Defined.

Lemma abort_ignores_answer_witness :
  run abort (mock_session ["ERROR 17"]) =
    (Ok tt,
     {| _com := {| outbox := [list_byte_of_string "ABORT " ++ crlf];
                   inbox := [] |};
        calls := [Wrote (list_byte_of_string "ABORT " ++ crlf);
                  ReadUntil crlf] |}).
Proof.
  apply (@abort_ignores_answer ascii_runtime MockPort mock_serial 8%Z
           (list_byte_of_string "ERROR 17" ++ crlf)
           (lit "ERROR 17" ++ term_chars)
           (mock_session ["ERROR 17"])).
  - repeat econstructor.
  - reflexivity.
Defined.

End OnTheScriptedDevice.
